(** * sysBBox: order fragmentation forms and split dialogs

    A shallow embedding of the domain logic of the production-order
    fragmentation components (the two versions of [OrderFragmentForm] and
    the two versions of [OrderSplitDialog]), followed by the properties
    claimed for them.

    Conventions of the embedding.
    - A JavaScript [number] is an exact rational or one of the IEEE special
      values [Infinity], [-Infinity], [NaN]: arithmetic is exact (no
      rounding) and zero is unsigned (it divides like [+0]). Sums,
      differences and comparisons of whole quantities are the same in
      double precision; quotients and products are not, and the value
      expressions are evaluated in double precision as well, in module
      [Binary64].
    - An optional property ([undefined]) is an [option]; [x || d] and
      truthiness follow JavaScript ([0], [NaN], the empty string and
      [undefined] are falsy).
    - A [Date] is a local calendar day and the milliseconds elapsed within
      that day; only valid dates are represented.
    - Reads of the environment ([new Date()], [Date.now()],
      [Math.random()]) are explicit arguments of the handlers.
    - A handler returns the next component state and the list of effects it
      performed (toast, alert, callback invocations), in order.
    - A handler runs on the rendered state: React renders again between two
      user events, so the [fragments] a handler closes over and the [prev]
      its state updater receives are the same list. The properties
      ([order], [products], [initialFragments]) do not change during a
      session. *)

From Stdlib Require Import QArith Qcanon Qround Lqa.
From Stdlib Require Import Floats.PrimFloat.
From stdpp Require Import base numbers list strings gmap pretty.

Local Open Scope Z_scope.
Local Open Scope string_scope.
Local Open Scope list_scope.

(** ** JavaScript numbers *)

Inductive num : Type :=
  | Fin (q : Qc)
  | PInf
  | NInf
  | NaN.

Definition Zero : num := Fin 0%Qc.
Definition One : num := Fin 1%Qc.
Definition of_Z (z : Z) : num := Fin (Q2Qc (inject_Z z)).
Definition of_nat (n : nat) : num := of_Z (Z.of_nat n).

Global Instance num_eq_dec : EqDecision num.
Proof. solve_decision. Defined.

(** Sign bookkeeping for the infinite cases of [*] and [/]. *)
Definition sign_inf (c : comparison) : num :=
  match c with Gt => PInf | Lt => NInf | Eq => NaN end.

Definition cmul (a b : comparison) : comparison :=
  match a, b with
  | Eq, _ | _, Eq => Eq
  | Gt, c => c
  | Lt, c => CompOpp c
  end.

Definition csign (q : Qc) : comparison := (q ?= 0)%Qc.

Definition nsign (a : num) : comparison :=
  match a with
  | Fin q => csign q
  | PInf => Gt
  | NInf => Lt
  | NaN => Eq
  end.

(** [a + b] *)
Definition nadd (a b : num) : num :=
  match a, b with
  | NaN, _ | _, NaN => NaN
  | Fin x, Fin y => Fin (x + y)%Qc
  | PInf, NInf | NInf, PInf => NaN
  | PInf, _ | _, PInf => PInf
  | NInf, _ | _, NInf => NInf
  end.

(** [- a] *)
Definition nopp (a : num) : num :=
  match a with
  | Fin x => Fin (- x)%Qc
  | PInf => NInf
  | NInf => PInf
  | NaN => NaN
  end.

(** [a - b] *)
Definition nsub (a b : num) : num := nadd a (nopp b).

(** [a * b], the exact product: a double-precision product is this one
    rounded. *)
Definition nmul (a b : num) : num :=
  match a, b with
  | NaN, _ | _, NaN => NaN
  | Fin x, Fin y => Fin (x * y)%Qc
  | _, _ => sign_inf (cmul (nsign a) (nsign b))
  end.

(** [a / b], the exact quotient: a double-precision quotient is this one
    rounded. A zero divisor gives an infinity of the sign of the dividend,
    and [0 / 0] is [NaN]. *)
Definition ndiv (a b : num) : num :=
  match a, b with
  | NaN, _ | _, NaN => NaN
  | Fin x, Fin y =>
      if decide (y = 0%Qc) then sign_inf (csign x) else Fin (x / y)%Qc
  | Fin _, _ => Zero
  | _, Fin y =>
      sign_inf (cmul (nsign a) (if decide (y = 0%Qc) then Gt else csign y))
  | _, _ => NaN
  end.

(** [a < b]: false as soon as one side is [NaN]. *)
Definition nlt (a b : num) : bool :=
  match a, b with
  | NaN, _ | _, NaN => false
  | Fin x, Fin y => bool_decide (x < y)%Qc
  | _, NInf => false
  | NInf, _ => true
  | PInf, _ => false
  | _, PInf => true
  end.

(** [a === b] on numbers: [NaN] is not equal to itself. *)
Definition nseq (a b : num) : bool :=
  match a, b with
  | NaN, _ | _, NaN => false
  | _, _ => bool_decide (a = b)
  end.

(** [a > b] *)
Definition ngt (a b : num) : bool := nlt b a.

(** [a <= b] *)
Definition nle (a b : num) : bool := nlt a b || nseq a b.

(** Truthiness of a number: [0] and [NaN] are falsy. *)
Definition ntruthy (a : num) : bool :=
  match a with
  | Fin q => bool_decide (q ≠ 0%Qc)
  | PInf | NInf => true
  | NaN => false
  end.

(** [x || 0] for a possibly missing number. *)
Definition nor0 (x : option num) : num :=
  match x with
  | Some a => if ntruthy a then a else Zero
  | None => Zero
  end.

(** [Math.max(a, b)] *)
Definition nmax (a b : num) : num :=
  match a, b with
  | NaN, _ | _, NaN => NaN
  | _, _ => if nlt a b then b else a
  end.

(** [Math.min(a, b)] *)
Definition nmin (a b : num) : num :=
  match a, b with
  | NaN, _ | _, NaN => NaN
  | _, _ => if nlt b a then b else a
  end.

(** [Math.ceil(a)] *)
Definition nceil (a : num) : num :=
  match a with
  | Fin q => of_Z (Qceiling (this q))
  | _ => a
  end.

(** Truthiness of a possibly missing string and [s || d]. *)
Definition struthy (s : option string) : bool :=
  match s with
  | Some x => bool_decide (x ≠ "")
  | None => false
  end.

Definition sor (s : option string) (d : string) : string :=
  match s with
  | Some x => if bool_decide (x ≠ "") then x else d
  | None => d
  end.

(** ** Dates *)

Record Date : Type := mkDate { day : Z; ms : N }.

Global Instance Date_eq_dec : EqDecision Date.
Proof. solve_decision. Defined.

(** [addDays(d, n)] of date-fns: the same time of day, [n] days later. *)
Definition addDays (d : Date) (n : Z) : Date :=
  {| day := day d + n; ms := ms d |}.

(** [d.setHours(0, 0, 0, 0)] *)
Definition startOfDay (d : Date) : Date := {| day := day d; ms := 0%N |}.

(** [a < b] on dates compares the instants. *)
Definition date_ltb (a b : Date) : bool :=
  bool_decide (day a < day b) ||
  (bool_decide (day a = day b) && bool_decide (ms a < ms b)%N).

(** ** Data model *)

(** [OrderProduct] of the data hook, with the properties the components
    read. *)
Record OrderProduct : Type := mkProduct {
  p_id : string;
  p_product_id : option string;
  p_product_name : string;
  p_size : string;
  p_color : string;
  p_quantity : num;
  p_total_price : num;
}.

(** A fragment as the split dialogs build it and as [order.fragments]
    holds it (snake-case properties). *)
Record SplitFragment : Type := mkSplitFragment {
  s_id : string;
  s_order_id : string;
  s_product_id : string;
  s_product_name : string;
  s_size : string;
  s_color : string;
  s_fragment_number : num;
  s_quantity : num;
  s_scheduled_date : Date;
  s_status : string;
  s_progress : num;
  s_value : num;
  s_assigned_operator : option string;
  s_started_at : option Date;
  s_completed_at : option Date;
}.

Record Order : Type := mkOrder {
  o_id : string;
  o_order_number : string;
  o_products : option (list OrderProduct);
  o_fragments : option (list SplitFragment);
}.

(** [Partial<OrderFragmentType> & { _tempId }]: the form's draft, and also
    the shape of a persisted [OrderFragmentType] (every property present
    or not). *)
Record Fragment : Type := mkFragment {
  f_tempId : option string;
  f_id : option string;
  f_orderId : option string;
  f_productId : option string;
  f_productName : option string;
  f_size : option string;
  f_color : option string;
  f_fragmentNumber : option Z;
  f_quantity : option num;
  f_scheduledDate : option Date;
  f_status : option string;
  f_progress : option num;
  f_value : option num;
  f_assignedOperator : option string;
  f_startedAt : option Date;
  f_completedAt : option Date;
}.

Global Instance OrderProduct_eq_dec : EqDecision OrderProduct.
Proof. solve_decision. Defined.
Global Instance SplitFragment_eq_dec : EqDecision SplitFragment.
Proof. solve_decision. Defined.
Global Instance Fragment_eq_dec : EqDecision Fragment.
Proof. solve_decision. Defined.

(** The object literal [{}] seen as a draft. *)
Definition emptyFragment : Fragment :=
  mkFragment None None None None None None None None None None None None None
             None None None.

(** [{ ...f, scheduledDate: d }], [{ ...f, quantity: q }] and
    [{ ...f, _tempId: t }]. *)
Definition with_scheduledDate (d : option Date) (f : Fragment) : Fragment :=
  mkFragment (f_tempId f) (f_id f) (f_orderId f) (f_productId f)
    (f_productName f) (f_size f) (f_color f) (f_fragmentNumber f)
    (f_quantity f) d (f_status f) (f_progress f) (f_value f)
    (f_assignedOperator f) (f_startedAt f) (f_completedAt f).

Definition with_quantity (q : option num) (f : Fragment) : Fragment :=
  mkFragment (f_tempId f) (f_id f) (f_orderId f) (f_productId f)
    (f_productName f) (f_size f) (f_color f) (f_fragmentNumber f)
    q (f_scheduledDate f) (f_status f) (f_progress f) (f_value f)
    (f_assignedOperator f) (f_startedAt f) (f_completedAt f).

Definition with_tempId (t : option string) (f : Fragment) : Fragment :=
  mkFragment t (f_id f) (f_orderId f) (f_productId f)
    (f_productName f) (f_size f) (f_color f) (f_fragmentNumber f)
    (f_quantity f) (f_scheduledDate f) (f_status f) (f_progress f) (f_value f)
    (f_assignedOperator f) (f_startedAt f) (f_completedAt f).

(** The two properties the form writes through [updateFragment]. *)
Inductive FieldValue : Type :=
  | FQuantity (q : num)
  | FScheduledDate (d : Date).

(** [{ ...fragment, [field]: value }] *)
Definition setField (fv : FieldValue) (f : Fragment) : Fragment :=
  match fv with
  | FQuantity q => with_quantity (Some q) f
  | FScheduledDate d => with_scheduledDate (Some d) f
  end.

(** [fragment.fragmentNumber || index + 1] *)
Definition fragmentNumberOr (f : Fragment) (index : nat) : Z :=
  match f_fragmentNumber f with
  | Some n => if bool_decide (n ≠ 0) then n else Z.of_nat index + 1
  | None => Z.of_nat index + 1
  end.

(** Environment reads of one handler run: [new Date()], the successive
    values of [Date.now()] (indexed by the array position at which it is
    read) and of the [Math.random()] suffix. *)
Record Env : Type := mkEnv {
  today : Date;
  clock : nat → Z;
  random : nat → string;
}.

(** [array.filter((x, i) => keep i x)] *)
Fixpoint ifilter_from {A : Type} (keep : nat → A → bool) (i : nat)
    (l : list A) : list A :=
  match l with
  | [] => []
  | x :: l' =>
      if keep i x then x :: ifilter_from keep (S i) l'
      else ifilter_from keep (S i) l'
  end.

Definition ifilter {A : Type} (keep : nat → A → bool) (l : list A) : list A :=
  ifilter_from keep 0 l.

(** ** The fragment form: what both variants share

    [props] are the component's properties; the state is what its
    [useState] cells hold. *)

Record Props : Type := mkProps {
  order : Order;
  products : list OrderProduct;
  initialFragments : list Fragment;
}.

Record State : Type := mkState {
  selectedProductId : string;
  fragments : list Fragment;
  showCalendar : option nat;
}.

(** User-facing messages of the forms (the [description] of the toast). *)
Inductive Message : Type :=
  (** "A quantidade total fragmentada (..) deve ser igual à quantidade total
      do produto selecionado (..) e todos os campos devem ser preenchidos." *)
  | MustEqualAndFilled (total productTotal : num)
  (** "Você deve fragmentar pelo menos 1 unidade." *)
  | AtLeastOneUnit
  (** "A quantidade total fragmentada (..) não pode ser maior que a
      quantidade total do produto (..)." *)
  | CannotExceed (total productTotal : num)
  (** "Todos os campos obrigatórios devem ser preenchidos." *)
  | RequiredFields.

Inductive Effect : Type :=
  | Toast (m : Message)
  | OnSave (finalFragments : list Fragment).

Module Form.
Section WithProps.
Variable props : Props.

(** [products.find((p) => p.id === selectedProductId)] *)
Definition selectedProduct (sel : string) : option OrderProduct :=
  List.find (λ p, bool_decide (p_id p = sel)) (products props).

(** [selectedProduct?.quantity || 0] *)
Definition productTotalQuantity (sel : string) : num :=
  nor0 (p_quantity <$> selectedProduct sel).

(** [selectedProduct?.total_price || 0] *)
Definition productTotalValue (sel : string) : num :=
  nor0 (p_total_price <$> selectedProduct sel).

(** [products[0]?.id || ""] *)
Definition initialSelectedProductId : string :=
  sor (p_id <$> head (products props)) "".

(** [if (fragments.length > 1) setFragments((prev) => prev.filter((_, i) => i !== index))] *)
Definition removeFragment (index : nat) (st : State) : State :=
  if bool_decide (1 < length (fragments st))%nat then
    mkState (selectedProductId st)
      (ifilter (λ i _, bool_decide (i ≠ index)) (fragments st))
      (showCalendar st)
  else st.

(** [setFragments((prev) => prev.map((fragment, i) => i === index ? { ...fragment, [field]: value } : fragment))] *)
Definition updateFragment (index : nat) (fv : FieldValue) (st : State)
    : State :=
  mkState (selectedProductId st)
    (imap (λ i fragment, if bool_decide (i = index)
                         then setField fv fragment else fragment)
          (fragments st))
    (showCalendar st).

Definition updateFragmentDate (index : nat) (date : Date) (st : State)
    : State :=
  let st' := updateFragment index (FScheduledDate date) st in
  mkState (selectedProductId st') (fragments st') None.

Definition calculateFragmentValue (st : State) (quantity : num) : num :=
  if nseq (productTotalQuantity (selectedProductId st)) Zero then Zero
  else nmul (ndiv quantity (productTotalQuantity (selectedProductId st)))
            (productTotalValue (selectedProductId st)).

Definition getTotalFragmentQuantity (st : State) : num :=
  fold_left (λ sum fragment, nadd sum (nor0 (f_quantity fragment)))
            (fragments st) Zero.

Definition getTotalFragmentValue (st : State) : num :=
  fold_left (λ sum fragment,
               nadd sum (calculateFragmentValue st (nor0 (f_quantity fragment))))
            (fragments st) Zero.

(** [f.quantity && f.quantity > 0 && f.scheduledDate], as a condition. *)
Definition draftFilled (f : Fragment) : bool :=
  match f_quantity f with
  | Some q => ntruthy q && ngt q Zero && bool_decide (is_Some (f_scheduledDate f))
  | None => false
  end.

(** The id a draft gets at save time:
    [fragment.id || `${baseOrderId}-frag-${fragment.fragmentNumber || index + 1}-${Date.now()}`] *)
Definition savedId (env : Env) (index : nat) (fragment : Fragment) : string :=
  sor (f_id fragment)
      (o_id (order props) +:+ "-frag-" +:+ pretty (fragmentNumberOr fragment index)
         +:+ "-" +:+ pretty (clock env index)).

(** [getTotalFragmentQuantity() - productTotalQuantity], which the first
    version shows beside the totals: green when it [=== 0]. *)
Definition quantityDifference (st : State) : num :=
  nsub (getTotalFragmentQuantity st)
       (productTotalQuantity (selectedProductId st)).
End WithProps.
End Form.

(** What the user can do in the form. *)
Inductive Event : Type :=
  | Add
  | Remove (index : nat)
  | Update (index : nat) (fv : FieldValue)
  | PickDate (index : nat) (date : Date)
  | SelectProduct (value : string)
  | Save.

(** ** First form variant (exact-match policy) *)

Module Strict.
Section WithProps.
Variable props : Props.

Definition defaultFragment (sel : string) (env : Env) : Fragment :=
  mkFragment None None None (Some sel) None None None
    (Some 1)
    (Some (nmax One (nceil (ndiv (Form.productTotalQuantity props sel) (of_Z 4)))))
    (Some (today env))
    (Some "pending")
    (Some Zero)
    None None None None.

(** The initializer of the [fragments] cell, which the effect re-runs
    when the selected product changes. *)
Definition initializeFragments (sel : string) (env : Env) : list Fragment :=
  let productFragments :=
    filter (λ f, f_productId f = Some sel) (initialFragments props) in
  if bool_decide (0 < length productFragments)%nat then
    (λ fragment,
       with_scheduledDate
         (Some (default (today env) (f_scheduledDate fragment))) fragment)
      <$> productFragments
  else [defaultFragment sel env].

(** State after the first render and its effect. *)
Definition mount (env : Env) : State :=
  let sel := Form.initialSelectedProductId props in
  mkState sel (initializeFragments sel env) None.

(** [setSelectedProductId(value)] followed by the effect it triggers. *)
Definition selectProduct (value : string) (env : Env) (st : State) : State :=
  if bool_decide (value = selectedProductId st) then st
  else mkState value (initializeFragments value env) (showCalendar st).

Definition addFragment (env : Env) (st : State) : State :=
  let lastFragment := last (fragments st) in
  let nextDate :=
    match lastFragment ≫= f_scheduledDate with
    | Some d => addDays d 1
    | None => today env
    end in
  mkState (selectedProductId st)
    (fragments st ++
     [mkFragment None None None None None None None
        (Some (Z.of_nat (length (fragments st)) + 1))
        (Some One)
        (Some nextDate)
        (Some "pending")
        (Some Zero)
        None None None None])
    (showCalendar st).

Definition isValid (st : State) : bool :=
  nseq (Form.getTotalFragmentQuantity st)
       (Form.productTotalQuantity props (selectedProductId st))
  && forallb Form.draftFilled (fragments st).

Definition handleSave (env : Env) (st : State) : State * list Effect :=
  if negb (isValid st) then
    (st, [Toast (MustEqualAndFilled
                   (Form.getTotalFragmentQuantity st)
                   (Form.productTotalQuantity props (selectedProductId st)))])
  else
    let otherFragments :=
      filter (λ f, f_productId f ≠ Some (selectedProductId st))
             (initialFragments props) in
    let baseOrderId := o_id (order props) in
    let currentProductFragments :=
      imap (λ index fragment,
              mkFragment None
                (Some (Form.savedId props env index fragment))
                (Some baseOrderId)
                (Some (selectedProductId st))
                None None None
                (Some (fragmentNumberOr fragment index))
                (Some (nor0 (f_quantity fragment)))
                (Some (default (today env) (f_scheduledDate fragment)))
                (Some (sor (f_status fragment) "pending"))
                (Some (nor0 (f_progress fragment)))
                (Some (Form.calculateFragmentValue props st
                         (nor0 (f_quantity fragment))))
                None None None)
           (fragments st) in
    (st, [OnSave (otherFragments ++ currentProductFragments)]).

Definition step (env : Env) (ev : Event) (st : State) : State * list Effect :=
  match ev with
  | Add => (addFragment env st, [])
  | Remove index => (Form.removeFragment index st, [])
  | Update index fv => (Form.updateFragment index fv st, [])
  | PickDate index date => (Form.updateFragmentDate index date st, [])
  | SelectProduct value => (selectProduct value env st, [])
  | Save => handleSave env st
  end.

(** A session: the events in order, each with its environment reads. *)
Fixpoint run (evs : list (Env * Event)) (st : State) : State * list Effect :=
  match evs with
  | [] => (st, [])
  | (env, ev) :: evs' =>
      let '(st1, out1) := step env ev st in
      let '(st2, out2) := run evs' st1 in
      (st2, out1 ++ out2)
  end.
End WithProps.
End Strict.

(** ** Second form variant (partial-allowed policy) *)

Module Partial.
Section WithProps.
Variable props : Props.

Definition defaultFragment (sel : string) (env : Env) : Fragment :=
  mkFragment (Some ("temp-" +:+ random env 0)) None None (Some sel)
    None None None
    (Some 1)
    (Some (nmax One (nceil (ndiv (Form.productTotalQuantity props sel) (of_Z 4)))))
    (Some (today env))
    (Some "pending")
    (Some Zero)
    None None None None.

Definition initializeFragments (sel : string) (env : Env) : list Fragment :=
  let productFragments :=
    filter (λ f, f_productId f = Some sel) (initialFragments props) in
  if bool_decide (0 < length productFragments)%nat then
    imap (λ i fragment,
            with_tempId (Some (sor (f_id fragment) ("temp-" +:+ random env i)))
              (with_scheduledDate
                 (Some (default (today env) (f_scheduledDate fragment)))
                 fragment))
         productFragments
  else [defaultFragment sel env].

Definition mount (env : Env) : State :=
  let sel := Form.initialSelectedProductId props in
  mkState sel (initializeFragments sel env) None.

Definition selectProduct (value : string) (env : Env) (st : State) : State :=
  if bool_decide (value = selectedProductId st) then st
  else mkState value (initializeFragments value env) (showCalendar st).

Definition addFragment (env : Env) (st : State) : State :=
  let lastFragment := last (fragments st) in
  let nextDate :=
    match lastFragment ≫= f_scheduledDate with
    | Some d => addDays d 1
    | None => today env
    end in
  let now := startOfDay (today env) in
  let nextDate := if date_ltb nextDate now then now else nextDate in
  mkState (selectedProductId st)
    (fragments st ++
     [mkFragment (Some ("temp-" +:+ random env 0)) None None
        (Some (selectedProductId st)) None None None
        (Some (Z.of_nat (length (fragments st)) + 1))
        (Some One)
        (Some nextDate)
        (Some "pending")
        (Some Zero)
        None None None None])
    (showCalendar st).

(** The [for] loop of [generateDefaultFragmentDates]: [i] is the loop
    variable, [n] the number of iterations left, [dates] the array. *)
Fixpoint generateDates_loop (startDate : Date) (i n : nat) (dates : list Date)
    : list Date :=
  match n with
  | O => dates
  | S n' =>
      let date := addDays startDate (Z.of_nat i) in
      generateDates_loop startDate (S i) n' (dates ++ [date])
  end.

(** [count] is a whole number of fragments. *)
Definition generateDefaultFragmentDates (count : nat) (env : Env) : list Date :=
  let startDate := startOfDay (today env) in
  generateDates_loop startDate 0 count [].

Definition isValid (st : State) : bool :=
  ngt (Form.getTotalFragmentQuantity st) Zero
  && nle (Form.getTotalFragmentQuantity st)
         (Form.productTotalQuantity props (selectedProductId st))
  && forallb Form.draftFilled (fragments st).

Definition handleSave (env : Env) (st : State) : State * list Effect :=
  if negb (isValid st) then
    let totalFragmented := Form.getTotalFragmentQuantity st in
    let errorMsg :=
      if nseq totalFragmented Zero then AtLeastOneUnit
      else if ngt totalFragmented
                  (Form.productTotalQuantity props (selectedProductId st))
      then CannotExceed totalFragmented
             (Form.productTotalQuantity props (selectedProductId st))
      else RequiredFields in
    (st, [Toast errorMsg])
  else
    let otherFragments :=
      filter (λ f, f_productId f ≠ Some (selectedProductId st))
             (initialFragments props) in
    let baseOrderId := o_id (order props) in
    let selectedProduct := Form.selectedProduct props (selectedProductId st) in
    let currentProductFragments :=
      imap (λ index fragment,
              mkFragment None
                (Some (Form.savedId props env index fragment))
                (Some baseOrderId)
                (Some (selectedProductId st))
                (Some (sor (p_product_name <$> selectedProduct) ""))
                (Some (sor (p_size <$> selectedProduct) ""))
                (Some (sor (p_color <$> selectedProduct) ""))
                (Some (fragmentNumberOr fragment index))
                (Some (nor0 (f_quantity fragment)))
                (Some (default (today env) (f_scheduledDate fragment)))
                (Some (sor (f_status fragment) "pending"))
                (Some (nor0 (f_progress fragment)))
                (Some (Form.calculateFragmentValue props st
                         (nor0 (f_quantity fragment))))
                (f_assignedOperator fragment)
                (f_startedAt fragment)
                (f_completedAt fragment))
           (fragments st) in
    (st, [OnSave (otherFragments ++ currentProductFragments)]).

Definition step (env : Env) (ev : Event) (st : State) : State * list Effect :=
  match ev with
  | Add => (addFragment env st, [])
  | Remove index => (Form.removeFragment index st, [])
  | Update index fv => (Form.updateFragment index fv st, [])
  | PickDate index date => (Form.updateFragmentDate index date st, [])
  | SelectProduct value => (selectProduct value env st, [])
  | Save => handleSave env st
  end.

Fixpoint run (evs : list (Env * Event)) (st : State) : State * list Effect :=
  match evs with
  | [] => (st, [])
  | (env, ev) :: evs' =>
      let '(st1, out1) := step env ev st in
      let '(st2, out2) := run evs' st1 in
      (st2, out1 ++ out2)
  end.
End WithProps.
End Partial.

(** ** The split dialog ([OrderSplitDialog.tsx]) *)

Module SplitDialog.

(** Messages passed to [alert]. *)
Inductive Alert : Type :=
  (** "Por favor, especifique a quantidade para pelo menos um produto" *)
  | SpecifyQuantity
  (** "A quantidade especificada não pode ser maior que a quantidade do
      produto" *)
  | ExceedsProduct
  (** "Erro ao fragmentar pedido. Tente novamente." *)
  | TryAgain.

Inductive DialogEffect : Type :=
  | ShowAlert (a : Alert)
  | OnSplit (fragments : list SplitFragment)
  | OnOpenChange (open : bool)
  | ConsoleError.

Record DialogState : Type := mkDialogState {
  quantities : gmap string num;
  loading : bool;
}.

Section WithOrder.
Variable order : Order.

(** [parsed] is the value of [parseInt(value)]. *)
Definition handleQuantityChange (productId : string) (parsed : num)
    (st : DialogState) : DialogState :=
  let num := nor0 (Some parsed) in
  mkDialogState (<[productId := nmax Zero num]> (quantities st)) (loading st).

(** [quantities[id] || 0] *)
Definition quantityOf (st : DialogState) (id : string) : num :=
  nor0 (quantities st !! id).

(** One element of the [map] in [handleSplit]. *)
Definition makeFragment (env : Env) (st : DialogState) (index : nat)
    (product : OrderProduct) : SplitFragment :=
  mkSplitFragment
    (o_id order +:+ "-frag-" +:+ pretty (clock env index) +:+ "-" +:+ pretty index)
    (o_id order)
    (sor (p_product_id product) (p_id product))
    (p_product_name product)
    (p_size product)
    (p_color product)
    (nadd (nadd (nor0 (of_nat ∘ length <$> o_fragments order)) (of_nat index)) One)
    (quantityOf st (p_id product))
    (today env)
    "pending"
    Zero
    (nmul (ndiv (p_total_price product) (p_quantity product))
          (quantityOf st (p_id product)))
    None None None.

(** [splitOk] tells whether the awaited [onSplit] promise resolves. *)
Definition handleSplit (env : Env) (splitOk : bool) (st : DialogState)
    : DialogState * list DialogEffect :=
  let hasQuantity :=
    bool_decide (map_Exists (λ _ q, ngt q Zero = true) (quantities st)) in
  if negb hasQuantity then
    (mkDialogState (quantities st) false, [ShowAlert SpecifyQuantity])
  else
    let hasExcess :=
      match o_products order with
      | Some ps =>
          existsb (λ product,
                     ngt (quantityOf st (p_id product)) (p_quantity product)) ps
      | None => false
      end in
    if hasExcess then
      (mkDialogState (quantities st) false, [ShowAlert ExceedsProduct])
    else
      let fragments :=
        match o_products order with
        | Some ps =>
            imap (makeFragment env st)
                 (List.filter
                    (λ product, ngt (quantityOf st (p_id product)) Zero) ps)
        | None => []
        end in
      if splitOk then
        (mkDialogState ∅ false, [OnSplit fragments; OnOpenChange false])
      else
        (mkDialogState (quantities st) false,
         [OnSplit fragments; ConsoleError; ShowAlert TryAgain]).
End WithOrder.
End SplitDialog.

(** ** The split dialog that tracks what is left to fragment

    The later version of the dialog: a product's entered quantity is
    checked against its quantity minus what [order.fragments] already
    holds for it. *)

Module SplitDialog2.

(** Messages passed to [alert]. *)
Inductive Alert : Type :=
  (** "Por favor, especifique a quantidade para pelo menos um produto" *)
  | SpecifyQuantity
  (** "A quantidade especificada não pode ser maior que a quantidade
      disponível para fragmentar" *)
  | ExceedsAvailable
  (** "Erro ao fragmentar pedido. Tente novamente." *)
  | TryAgain.

Inductive DialogEffect : Type :=
  | ShowAlert (a : Alert)
  | OnSplit (fragments : list SplitFragment)
  | OnOpenChange (open : bool)
  | ConsoleError.

Record DialogState : Type := mkDialogState {
  quantities : gmap string num;
  loading : bool;
}.

Section WithOrder.
Variable order : Order.

Definition getAvailableQuantity (productId : string) : num :=
  match o_products order ≫=
        List.find (λ p, bool_decide (p_id p = productId)
                        || bool_decide (p_product_id p = Some productId)) with
  | None => Zero
  | Some product =>
      let totalQuantity := p_quantity product in
      let actualProductId := sor (p_product_id product) (p_id product) in
      let alreadyFragmented :=
        nor0 ((λ fs,
                 fold_left
                   (λ sum f,
                      nadd sum
                        (if bool_decide (s_product_id f = actualProductId)
                            || bool_decide (s_product_id f = productId)
                            || bool_decide (s_product_id f = p_id product)
                         then s_quantity f else Zero))
                   fs Zero)
              <$> o_fragments order) in
      nsub totalQuantity alreadyFragmented
  end.

(** The [availableQty] the product card displays ("Disponível"), computed
    in the view from the product itself. *)
Definition viewAvailableQty (product : OrderProduct) : num :=
  let maxQty := p_quantity product in
  let actualProductId := sor (p_product_id product) (p_id product) in
  let alreadyFragmented :=
    nor0 ((λ fs,
             fold_left
               (λ sum f,
                  nadd sum
                    (if bool_decide (s_product_id f = actualProductId)
                        || bool_decide (s_product_id f = p_id product)
                     then s_quantity f else Zero))
               fs Zero)
          <$> o_fragments order) in
  nsub maxQty alreadyFragmented.

(** [quantities[id] || 0] *)
Definition quantityOf (st : DialogState) (id : string) : num :=
  nor0 (quantities st !! id).

(** [parsed] is the value of [parseInt(value)]. *)
Definition handleQuantityChange (productId : string) (parsed : num)
    (st : DialogState) : DialogState :=
  let availableQty := getAvailableQuantity productId in
  let num := nmin availableQty (nmax Zero (nor0 (Some parsed))) in
  mkDialogState (<[productId := num]> (quantities st)) (loading st).

Definition incrementQuantity (productId : string) (st : DialogState)
    : DialogState :=
  let availableQty := getAvailableQuantity productId in
  let current := quantityOf st productId in
  if nlt current availableQty then
    mkDialogState (<[productId := nadd current One]> (quantities st))
                  (loading st)
  else st.

Definition decrementQuantity (productId : string) (st : DialogState)
    : DialogState :=
  let current := quantityOf st productId in
  if ngt current Zero then
    mkDialogState (<[productId := nsub current One]> (quantities st))
                  (loading st)
  else st.

(** One element of the [map] in [handleSplit]. *)
Definition makeFragment (env : Env) (st : DialogState) (index : nat)
    (product : OrderProduct) : SplitFragment :=
  mkSplitFragment
    (o_id order +:+ "-frag-" +:+ pretty (clock env index) +:+ "-" +:+ pretty index)
    (o_id order)
    (sor (p_product_id product) (p_id product))
    (p_product_name product)
    (p_size product)
    (p_color product)
    (nadd (nadd (nor0 (of_nat ∘ length <$> o_fragments order)) (of_nat index)) One)
    (quantityOf st (p_id product))
    (today env)
    "pending"
    Zero
    (nmul (ndiv (p_total_price product) (p_quantity product))
          (quantityOf st (p_id product)))
    None None None.

(** [splitOk] tells whether the awaited [onSplit] promise resolves. *)
Definition handleSplit (env : Env) (splitOk : bool) (st : DialogState)
    : DialogState * list DialogEffect :=
  let hasQuantity :=
    bool_decide (map_Exists (λ _ q, ngt q Zero = true) (quantities st)) in
  if negb hasQuantity then
    (mkDialogState (quantities st) false, [ShowAlert SpecifyQuantity])
  else
    let hasExcess :=
      match o_products order with
      | Some ps =>
          existsb (λ product,
                     let qty := quantityOf st (p_id product) in
                     let availableQty := getAvailableQuantity (p_id product) in
                     ngt qty availableQty) ps
      | None => false
      end in
    if hasExcess then
      (mkDialogState (quantities st) false, [ShowAlert ExceedsAvailable])
    else
      let fragments :=
        match o_products order with
        | Some ps =>
            imap (makeFragment env st)
                 (List.filter
                    (λ product, ngt (quantityOf st (p_id product)) Zero) ps)
        | None => []
        end in
      if splitOk then
        (mkDialogState ∅ false, [OnSplit fragments; OnOpenChange false])
      else
        (mkDialogState (quantities st) false,
         [OnSplit fragments; ConsoleError; ShowAlert TryAgain]).
End WithOrder.
End SplitDialog2.

(** ** The value expressions in double precision

    The two expressions that compute a fragment's value, evaluated as the
    JavaScript engine evaluates them: every quotient and product is
    rounded to the nearest IEEE binary64 number. *)

Module Binary64.

(** [x || 0] on a number: [0], [-0] and [NaN] are falsy. *)
Definition or0 (x : float) : float :=
  if PrimFloat.eqb x x && negb (PrimFloat.eqb x 0) then x else 0%float.

(** [calculateFragmentValue] of both form versions; the totals of the
    selected product, which the function closes over, are arguments. *)
Definition calculateFragmentValue
    (productTotalQuantity productTotalValue quantity : float) : float :=
  if PrimFloat.eqb productTotalQuantity 0 then 0%float
  else PrimFloat.mul (PrimFloat.div quantity productTotalQuantity)
                     productTotalValue.

(** The [value] of a fragment in [handleSplit] of both dialog versions:
    [(product.total_price / product.quantity) * (quantities[product.id] || 0)]. *)
Definition splitValue (total_price quantity entered : float) : float :=
  PrimFloat.mul (PrimFloat.div total_price quantity) (or0 entered).

End Binary64.

(** ** Sample data

    An order of two products: 100 units worth 500 and 10 units worth 80. *)

Definition env0 : Env :=
  mkEnv (mkDate 20000 0) (λ _, 1700000000000) (λ _, "k3x9q2m1z").

Definition shirt : OrderProduct :=
  mkProduct "p1" None "Camisa" "M" "Azul" (of_Z 100) (of_Z 500).

Definition cap : OrderProduct :=
  mkProduct "p2" None "Bone" "U" "Preto" (of_Z 10) (of_Z 80).

Definition order1 : Order := mkOrder "o1" "1001" (Some [shirt; cap]) None.

Definition props1 : Props := mkProps order1 [shirt; cap] [].

(** The same order with one fragment of the second product already
    persisted. *)
Definition capFragment : Fragment :=
  mkFragment None (Some "o1-frag-1-1690000000000") (Some "o1") (Some "p2")
    None None None (Some 1) (Some (of_Z 10)) (Some (mkDate 19990 0))
    (Some "pending") (Some Zero) (Some (of_Z 80)) None None None.

Definition props2 : Props := mkProps order1 [shirt; cap] [capFragment].

(** The user splits the 100 units of the first product into 40 and 60. *)
Definition split4060 : list (Env * Event) :=
  [(env0, Update 0 (FQuantity (of_Z 40)));
   (env0, Add);
   (env0, Update 1 (FQuantity (of_Z 60)))].

Definition strictValid : State :=
  (Strict.run props2 split4060 (Strict.mount props2 env0)).1.

Definition partialValid : State :=
  (Partial.run props2 split4060 (Partial.mount props2 env0)).1.

(** A draft list with a single draft of quantity zero. *)
Definition partialZero : State :=
  Form.updateFragment 0 (FQuantity Zero) (Partial.mount props2 env0).

(** An order of one product of 3 units, and a session that adds two drafts,
    removes the first draft, adds another one and saves. *)

Definition scarf : OrderProduct :=
  mkProduct "p3" None "Cachecol" "U" "Cinza" (of_Z 3) (of_Z 30).

Definition order3 : Order := mkOrder "o3" "1003" (Some [scarf]) None.

Definition props3 : Props := mkProps order3 [scarf] [].

Definition addRemoveAdd : list (Env * Event) :=
  [(env0, Add); (env0, Add); (env0, Remove 0); (env0, Add); (env0, Save)].

(** The user opens the second product, whose persisted fragment is dated
    ten days before today, and adds a draft. *)
Definition addAfterPast : list (Env * Event) :=
  [(env0, SelectProduct "p2"); (env0, Add)].

(** The user enters 40 units for the first product, switches to the second
    product, assigns its 10 units and saves. *)
Definition editThenSwitch : list (Env * Event) :=
  [(env0, Update 0 (FQuantity (of_Z 40)));
   (env0, SelectProduct "p2");
   (env0, Update 0 (FQuantity (of_Z 10)));
   (env0, Save)].

(** A product whose total price is negative. *)
Definition refund : OrderProduct :=
  mkProduct "p9" None "Estorno" "U" "Branco" (of_Z 10) (of_Z (-100)).

Definition props9 : Props :=
  mkProps (mkOrder "o9" "1009" (Some [refund]) None) [refund] [].

(** The dialog with 40 units of the first product entered. *)
Definition dialog1 : SplitDialog.DialogState :=
  SplitDialog.mkDialogState {[ "p1" := of_Z 40 ]} false.

(** A form opened on an order without products. *)
Definition propsNone : Props := mkProps order1 [] [].

(** An order with 30 units of the first product already fragmented, and
    the later dialog with 40 more units entered for it. *)
Definition shirtBatch : SplitFragment :=
  mkSplitFragment "o5-frag-1690000000000-0" "o5" "p1" "Camisa" "M" "Azul"
    (of_Z 1) (of_Z 30) (mkDate 19990 0) "pending" Zero (of_Z 150)
    None None None.

Definition order5 : Order :=
  mkOrder "o5" "1005" (Some [shirt; cap]) (Some [shirtBatch]).

Definition dialog5 : SplitDialog2.DialogState :=
  SplitDialog2.mkDialogState {[ "p1" := of_Z 40 ]} false.

(** A product of 3 units worth 10 in all, and the dialog with one unit of
    it entered. *)
Definition ribbon : OrderProduct :=
  mkProduct "p6" None "Fita" "U" "Vermelho" (of_Z 3) (of_Z 10).

Definition order6 : Order := mkOrder "o6" "1006" (Some [ribbon]) None.

Definition dialog6 : SplitDialog.DialogState :=
  SplitDialog.mkDialogState {[ "p6" := of_Z 1 ]} false.

(** The dialog with 40 units of the first product and 5 of the second
    entered. *)
Definition dialogBoth : SplitDialog.DialogState :=
  SplitDialog.mkDialogState {[ "p1" := of_Z 40; "p2" := of_Z 5 ]} false.




(** ** Vocabulary of the properties *)

(** A number that is an exact rational. *)
Definition finite (a : num) : Prop := ∃ q, a = Fin q.

(** The order of the extended rationals; nothing compares with [NaN]. *)
Inductive num_lt : num → num → Prop :=
  | lt_fin_fin x y : (x < y)%Qc → num_lt (Fin x) (Fin y)
  | lt_fin_pinf x : num_lt (Fin x) PInf
  | lt_ninf_fin y : num_lt NInf (Fin y)
  | lt_ninf_pinf : num_lt NInf PInf.

Definition num_le (a b : num) : Prop := num_lt a b ∨ (a = b ∧ a ≠ NaN).

Definition positive (a : num) : Prop := num_lt Zero a.

(** The sum of the drafts' quantities; a draft without a quantity adds
    nothing. *)
Definition totalQuantity (drafts : list Fragment) : num :=
  foldr nadd Zero ((λ f, default Zero (f_quantity f)) <$> drafts).

(** A draft with a quantity above zero and a scheduled date. *)
Definition complete (f : Fragment) : Prop :=
  (∃ q, f_quantity f = Some q ∧ positive q) ∧ is_Some (f_scheduledDate f).

(** The condition a form message names has failed in the state: the
    message shows the running total and the product's total, and the part
    of the validity rule it speaks of does not hold. *)
Definition violated (props : Props) (st : State) (m : Message) : Prop :=
  let T := Form.productTotalQuantity props (selectedProductId st) in
  match m with
  | MustEqualAndFilled total productTotal =>
      total = Form.getTotalFragmentQuantity st ∧ productTotal = T ∧
      ¬ (totalQuantity (fragments st) = T ∧ Forall complete (fragments st))
  | AtLeastOneUnit => ¬ num_lt Zero (totalQuantity (fragments st))
  | CannotExceed total productTotal =>
      total = Form.getTotalFragmentQuantity st ∧ productTotal = T ∧
      ¬ num_le (totalQuantity (fragments st)) T
  | RequiredFields => ¬ Forall complete (fragments st)
  end.

(** The two checks of the split dialog, as failed by a state: no entered
    quantity is above zero; some product's entered quantity exceeds the
    product's quantity. *)
Definition noQuantity (st : SplitDialog.DialogState) : Prop :=
  ∀ id q, SplitDialog.quantities st !! id = Some q → ¬ num_lt Zero q.

Definition someExcess (order : Order) (st : SplitDialog.DialogState) : Prop :=
  ∃ ps product,
    o_products order = Some ps ∧ product ∈ ps ∧
    num_lt (p_quantity product) (SplitDialog.quantityOf st (p_id product)).

Definition alertViolated (order : Order) (st : SplitDialog.DialogState)
    (a : SplitDialog.Alert) : Prop :=
  match a with
  | SplitDialog.SpecifyQuantity => noQuantity st
  | SplitDialog.ExceedsProduct => someExcess order st
  | SplitDialog.TryAgain => False
  end.

(** [f] is the saved form of the draft [d]: stamped with the order and the
    selected product, carrying the draft's quantity and the value computed
    from it, and keeping the draft's identifier and date when it has
    them. *)
Definition finalizedFrom (props : Props) (st : State) (d f : Fragment) : Prop :=
  f_orderId f = Some (o_id (order props)) ∧
  f_productId f = Some (selectedProductId st) ∧
  f_quantity f = Some (nor0 (f_quantity d)) ∧
  f_value f
    = Some (Form.calculateFragmentValue props st (nor0 (f_quantity d))) ∧
  (struthy (f_id d) = true → f_id f = f_id d) ∧
  (is_Some (f_scheduledDate d) → f_scheduledDate f = f_scheduledDate d).

(** The persisted fragments of the products other than [sel]. *)
Definition otherProducts (props : Props) (sel : string) : list Fragment :=
  filter (λ f, f_productId f ≠ Some sel) (initialFragments props).

(** The lists a form hands to [onSave] during a run. *)
Definition savedLists (out : list Effect) : list (list Fragment) :=
  omap (λ e, match e with OnSave l => Some l | Toast _ => None end) out.

(** The lists a dialog hands to [onSplit] during a run. *)
Definition splitLists (out : list SplitDialog.DialogEffect)
    : list (list SplitFragment) :=
  omap (λ e, match e with SplitDialog.OnSplit l => Some l | _ => None end) out.

Definition splitLists2 (out : list SplitDialog2.DialogEffect)
    : list (list SplitFragment) :=
  omap (λ e, match e with SplitDialog2.OnSplit l => Some l | _ => None end) out.

(** Well-formed data for the later dialog: looking a product up by its id
    finds that product, and no persisted fragment has a negative
    quantity. *)
Definition foundByItsId (order : Order) (product : OrderProduct) : Prop :=
  o_products order ≫=
    List.find (λ p, bool_decide (p_id p = p_id product)
                    || bool_decide (p_product_id p = Some (p_id product)))
  = Some product.

Definition fragmentsNotNegative (order : Order) : Prop :=
  ∀ fs f, o_fragments order = Some fs → f ∈ fs → num_le Zero (s_quantity f).

(** A draft with a scheduled date. *)
Definition dated (f : Fragment) : Prop := is_Some (f_scheduledDate f).

(** Every quantity entered in the dialog is zero or above. *)
Definition quantitiesNotNegative (st : SplitDialog.DialogState) : Prop :=
  map_Forall (λ _ q, num_le Zero q) (SplitDialog.quantities st).

(** Drafts numbered by their position, none of them with an identifier
    yet. *)
Definition numbered (l : list Fragment) : Prop :=
  ∀ i d, l !! i = Some d →
         f_fragmentNumber d = Some (Z.of_nat i + 1) ∧ f_id d = None.

(** ** Numbers: order, truthiness and arithmetic *)

Lemma nlt_spec (a b : num) : nlt a b = true ↔ num_lt a b.
Proof.
  split.
  - destruct a, b; simpl; intros H; try discriminate;
      constructor; by apply bool_decide_eq_true in H.
  - destruct 1; simpl; [by apply bool_decide_eq_true|done..].
Qed.

Lemma nseq_spec (a b : num) : nseq a b = true ↔ a = b ∧ a ≠ NaN.
Proof.
  destruct a, b; simpl; rewrite ?bool_decide_eq_true; intuition congruence.
Qed.

Lemma nle_spec (a b : num) : nle a b = true ↔ num_le a b.
Proof.
  unfold nle, num_le. by rewrite orb_true_iff, nlt_spec, nseq_spec.
Qed.

Lemma ngt_spec (a b : num) : ngt a b = true ↔ num_lt b a.
Proof. apply nlt_spec. Qed.

Lemma num_lt_irrefl (a : num) : ¬ num_lt a a.
Proof. inversion 1; subst. by eapply Qclt_not_eq. Qed.

Lemma num_lt_trans (a b c : num) : num_lt a b → num_lt b c → num_lt a c.
Proof.
  destruct 1; inversion 1; subst; try constructor.
  by eapply Qclt_trans.
Qed.

Lemma num_lt_not_nan_l (a b : num) : num_lt a b → a ≠ NaN.
Proof. by destruct 1. Qed.

Lemma num_lt_not_nan_r (a b : num) : num_lt a b → b ≠ NaN.
Proof. by destruct 1. Qed.

(** Two numbers that are not [NaN] are comparable. *)
Lemma num_le_or_lt (a b : num) : a ≠ NaN → b ≠ NaN → num_le a b ∨ num_lt b a.
Proof.
  intros Ha Hb. unfold num_le. destruct a as [x| | |], b as [y| | |];
    try done;
    try solve [left; left; constructor | right; constructor | by left; right].
  destruct (Qc_dec x y) as [[H|H]|H].
  - left; left. by constructor.
  - right. by constructor.
  - subst. by left; right.
Qed.

Lemma num_le_not_lt (a b : num) : num_le a b → ¬ num_lt b a.
Proof.
  intros [H|[-> _]] H'; [|by eapply num_lt_irrefl].
  eapply num_lt_irrefl, num_lt_trans; eauto.
Qed.

Lemma positive_truthy (q : num) : positive q → ntruthy q = true.
Proof.
  inversion 1 as [x y Hlt| | |]; subst; simpl; [|done].
  apply bool_decide_eq_true. intros ->. by eapply Qclt_not_eq.
Qed.

Lemma positive_nor0 (q : num) : positive q → nor0 (Some q) = q.
Proof. intros H. simpl. by rewrite positive_truthy. Qed.

Lemma nor0_not_nan (x : option num) : nor0 x ≠ NaN.
Proof.
  destruct x as [[]|]; simpl; try done. by case_bool_decide.
Qed.

Lemma nadd_Zero_l (a : num) : nadd Zero a = a.
Proof. destruct a; simpl; try done. by rewrite Qcplus_0_l. Qed.

Lemma nadd_Zero_r (a : num) : nadd a Zero = a.
Proof. destruct a; simpl; try done. by rewrite Qcplus_0_r. Qed.

Lemma nadd_assoc (a b c : num) : nadd a (nadd b c) = nadd (nadd a b) c.
Proof. destruct a, b, c; simpl; try done. by rewrite Qcplus_assoc. Qed.

Lemma nadd_comm (a b : num) : nadd a b = nadd b a.
Proof. destruct a, b; simpl; try done. by rewrite Qcplus_comm. Qed.

Lemma nadd_positive (a b : num) :
  positive a → (b = Zero ∨ positive b) → positive (nadd a b).
Proof.
  intros Ha [->|Hb]; [by rewrite nadd_Zero_r|].
  inversion Ha; inversion Hb; subst; simpl; constructor.
  by apply Qcplus_pos_pos.
Qed.

(** A left fold that adds one term per element is the initial value plus
    the sum of the terms. *)
Lemma fold_left_nadd {A : Type} (g : A → num) (l : list A) (a : num) :
  fold_left (λ sum x, nadd sum (g x)) l a = nadd a (foldr nadd Zero (g <$> l)).
Proof.
  revert a. induction l as [|x l IH]; intros a; simpl.
  - by rewrite nadd_Zero_r.
  - by rewrite IH, nadd_assoc.
Qed.

(** ** Totals and completeness of drafts *)

Lemma draftFilled_spec (f : Fragment) :
  Form.draftFilled f = true ↔ complete f.
Proof.
  unfold Form.draftFilled, complete. destruct (f_quantity f) as [q|].
  - rewrite !andb_true_iff, ngt_spec, bool_decide_eq_true. split.
    + intros [[_ Hq] Hd]. eauto.
    + intros [(q' & [= <-] & Hq) Hd]. auto using positive_truthy.
  - split; [done|]. by intros [(q & ? & _) _].
Qed.

Lemma forallb_draftFilled (l : list Fragment) :
  forallb Form.draftFilled l = true ↔ Forall complete l.
Proof.
  induction l as [|f l IH]; simpl.
  - split; [constructor|done].
  - rewrite andb_true_iff, Forall_cons, draftFilled_spec, IH. done.
Qed.

Lemma getTotalFragmentQuantity_foldr (st : State) :
  Form.getTotalFragmentQuantity st
  = foldr nadd Zero ((λ f, nor0 (f_quantity f)) <$> fragments st).
Proof.
  unfold Form.getTotalFragmentQuantity.
  by rewrite (fold_left_nadd (λ f, nor0 (f_quantity f))), nadd_Zero_l.
Qed.

(** On complete drafts the [|| 0] of the code changes nothing. *)
Lemma total_of_complete (st : State) :
  Forall complete (fragments st) →
  Form.getTotalFragmentQuantity st = totalQuantity (fragments st).
Proof.
  rewrite getTotalFragmentQuantity_foldr. unfold totalQuantity.
  generalize (fragments st). intros l.
  induction 1 as [|f l' [(q & Hq & Hpos) _] _ IH]; [done|].
  rewrite !fmap_cons. cbn [foldr]. rewrite IH, Hq.
  by rewrite positive_nor0.
Qed.

Lemma totalQuantity_complete (l : list Fragment) :
  Forall complete l →
  (l = [] ∧ totalQuantity l = Zero) ∨ (l ≠ [] ∧ positive (totalQuantity l)).
Proof.
  induction 1 as [|f l [(q & Hq & Hpos) _] _ IH]; [by left|right].
  split; [done|]. unfold totalQuantity. rewrite fmap_cons. cbn [foldr].
  rewrite Hq. cbn [default].
  apply nadd_positive; [done|].
  fold (totalQuantity l). destruct IH as [[_ ->]|[_ H]]; auto.
Qed.

Lemma totalQuantity_complete_not_nan (l : list Fragment) :
  Forall complete l → totalQuantity l ≠ NaN.
Proof.
  intros [[_ ->]|[_ H]]%totalQuantity_complete; [done|].
  by eapply num_lt_not_nan_r.
Qed.

(** [isValid] of each variant, read off the code: the total is the one the
    code computes, with [|| 0] on every quantity. *)
Lemma strict_isValid_unfold (props : Props) (st : State) :
  Strict.isValid props st = true ↔
    Form.getTotalFragmentQuantity st
      = Form.productTotalQuantity props (selectedProductId st)
    ∧ Forall complete (fragments st).
Proof.
  unfold Strict.isValid.
  rewrite andb_true_iff, nseq_spec, forallb_draftFilled. split.
  - by intros [[Heq _] Hall].
  - intros [Heq Hall]. split_and!; try done.
    rewrite total_of_complete by done.
    by apply totalQuantity_complete_not_nan.
Qed.

Lemma partial_isValid_unfold (props : Props) (st : State) :
  Partial.isValid props st = true ↔
    num_lt Zero (Form.getTotalFragmentQuantity st)
    ∧ num_le (Form.getTotalFragmentQuantity st)
             (Form.productTotalQuantity props (selectedProductId st))
    ∧ Forall complete (fragments st).
Proof.
  unfold Partial.isValid.
  rewrite !andb_true_iff, ngt_spec, nle_spec, forallb_draftFilled.
  by rewrite (assoc (∧)).
Qed.

(** C2. Under the exact-match policy of the first form variant, [isValid]
    holds exactly when the drafts' quantities add up to the selected
    product's total quantity and every draft has a quantity above zero and
    a scheduled date. *)
Theorem strict_isValid_iff (props : Props) (st : State) :
  Strict.isValid props st = true ↔
    totalQuantity (fragments st)
      = Form.productTotalQuantity props (selectedProductId st)
    ∧ Forall complete (fragments st).
Proof.
  rewrite strict_isValid_unfold. split.
  - intros [Heq Hall]. by rewrite <- total_of_complete.
  - intros [Heq Hall]. by rewrite total_of_complete.
Qed.

(** C3. Under the partial-allowed policy of the second form variant,
    [isValid] holds exactly when the drafts' quantities add up to more than
    zero and to at most the selected product's total quantity, and every
    draft has a quantity above zero and a scheduled date. *)
Theorem partial_isValid_iff (props : Props) (st : State) :
  Partial.isValid props st = true ↔
    num_lt Zero (totalQuantity (fragments st))
    ∧ num_le (totalQuantity (fragments st))
             (Form.productTotalQuantity props (selectedProductId st))
    ∧ Forall complete (fragments st).
Proof.
  rewrite partial_isValid_unfold. split.
  - intros (Hpos & Hle & Hall). by rewrite <- total_of_complete.
  - intros (Hpos & Hle & Hall). by rewrite total_of_complete.
Qed.

(** ** Signs of products and quotients *)

Lemma csign_eq (x : Qc) : csign x = Eq ↔ x = 0%Qc.
Proof. unfold csign. symmetry. apply Qceq_alt. Qed.

Lemma csign_lt (x : Qc) : csign x = Lt ↔ (x < 0)%Qc.
Proof. unfold csign. symmetry. apply Qclt_alt. Qed.

Lemma csign_gt (x : Qc) : csign x = Gt ↔ (0 < x)%Qc.
Proof. unfold csign. symmetry. apply Qcgt_alt. Qed.

Lemma Qc_neg_pos (y : Qc) : (y < 0)%Qc ↔ (0 < - y)%Qc.
Proof. by rewrite Qclt_minus_iff, Qcplus_0_l. Qed.

Lemma Qcmult_pos_neg (x y : Qc) : (0 < x)%Qc → (y < 0)%Qc → (x * y < 0)%Qc.
Proof.
  rewrite !Qc_neg_pos. intros Hx Hy.
  replace (- (x * y))%Qc with (x * - y)%Qc by ring. by apply Qcmult_pos_pos.
Qed.

Lemma Qcmult_neg_neg (x y : Qc) : (x < 0)%Qc → (y < 0)%Qc → (0 < x * y)%Qc.
Proof.
  rewrite !Qc_neg_pos. intros Hx Hy.
  replace (x * y)%Qc with (- x * - y)%Qc by ring. by apply Qcmult_pos_pos.
Qed.

Lemma csign_mul (x y : Qc) : csign (x * y)%Qc = cmul (csign x) (csign y).
Proof.
  destruct (csign x) eqn:Hx, (csign y) eqn:Hy; simpl;
    rewrite ?csign_eq, ?csign_lt, ?csign_gt in *; subst;
    rewrite ?Qcmult_0_l, ?Qcmult_0_r; try reflexivity;
    try (rewrite Qcmult_comm; by apply Qcmult_pos_neg);
    auto using Qcmult_pos_pos, Qcmult_pos_neg, Qcmult_neg_neg.
Qed.

Lemma csign_inv (x : Qc) : csign (/ x)%Qc = csign x.
Proof.
  destruct (decide (x = 0%Qc)) as [->|Hx]; [reflexivity|].
  assert (H : (x * / x = 1)%Qc) by (by apply Qcmult_inv_r).
  assert (Hs : cmul (csign x) (csign (/ x)%Qc) = Gt).
  { rewrite <- csign_mul, H. reflexivity. }
  destruct (csign x), (csign (/ x)%Qc); simpl in Hs; congruence.
Qed.

Lemma csign_div (x y : Qc) : csign (x / y)%Qc = cmul (csign x) (csign y).
Proof. unfold Qcdiv. by rewrite csign_mul, csign_inv. Qed.

Lemma cmul_comm (a b : comparison) : cmul a b = cmul b a.
Proof. by destruct a, b. Qed.

Lemma cmul_assoc (a b c : comparison) : cmul a (cmul b c) = cmul (cmul a b) c.
Proof. by destruct a, b, c. Qed.

Lemma nsign_sign_inf (c : comparison) : nsign (sign_inf c) = c.
Proof. by destruct c. Qed.

Lemma csign_0 : csign 0%Qc = Eq.
Proof. by apply csign_eq. Qed.

(** [(V / T) * q] and [(q / T) * V] agree whenever [T] is not zero. *)
Lemma nmul_ndiv_swap (T V q : num) :
  T ≠ Zero → nmul (ndiv V T) q = nmul (ndiv q T) V.
Proof.
  intros HT.
  destruct T as [t| | |], V as [v| | |], q as [x| | |]; simpl; try done;
    repeat case_decide; subst; try done;
    simpl; rewrite ?csign_div, ?csign_0, ?nsign_sign_inf; simpl;
    try (f_equal; by field);
    try (f_equal; ring);
    try (destruct (csign t) eqn:Ht; [by apply csign_eq in Ht|..]; simpl;
         repeat match goal with
                | |- context [csign ?y] => destruct (csign y)
                end; done).
Qed.

(** ** The proportional value *)

Lemma nseq_Zero (a : num) : nseq a Zero = true ↔ a = Zero.
Proof. rewrite nseq_spec. split; [by intros [? _]|by intros ->]. Qed.

Lemma calculateFragmentValue_eq (props : Props) (st : State) (q : num) :
  Form.calculateFragmentValue props st q
  = if decide (Form.productTotalQuantity props (selectedProductId st) = Zero)
    then Zero
    else nmul (ndiv q (Form.productTotalQuantity props (selectedProductId st)))
              (Form.productTotalValue props (selectedProductId st)).
Proof.
  unfold Form.calculateFragmentValue.
  destruct (nseq _ Zero) eqn:H; case_decide as H'; try done.
  - by apply nseq_Zero in H.
  - apply nseq_Zero in H'. congruence.
Qed.

(** On rationals the form's value is the rational [q / T * V]. *)
Lemma calculateFragmentValue_rational (props : Props) (st : State)
    (q t v : Qc) :
  Form.productTotalQuantity props (selectedProductId st) = Fin t →
  Form.productTotalValue props (selectedProductId st) = Fin v →
  Form.calculateFragmentValue props st (Fin q)
  = if decide (t = 0%Qc) then Zero else Fin (q / t * v)%Qc.
Proof.
  intros HT HV. rewrite calculateFragmentValue_eq, HT, HV.
  destruct (decide (t = 0%Qc)) as [->|Ht].
  - by rewrite decide_True.
  - rewrite decide_False by (by intros [= ?]).
    simpl. by rewrite decide_False.
Qed.

Lemma existsb_false {A : Type} (f : A → bool) (l : list A) (x : A) :
  existsb f l = false → In x l → f x = false.
Proof.
  intros Hex Hin. destruct (f x) eqn:Hfx; [|done].
  rewrite <- Hex. symmetry. apply existsb_exists. eauto.
Qed.

(** What reaches [onSplit]: one fragment per product with a quantity above
    zero, and that quantity does not exceed the product's. *)
Lemma handleSplit_fragments (order : Order) (env : Env) (ok : bool)
    (st st' : SplitDialog.DialogState) (out : list SplitDialog.DialogEffect)
    (frs : list SplitFragment) (i : nat) (fr : SplitFragment) :
  SplitDialog.handleSplit order env ok st = (st', out) →
  frs ∈ splitLists out →
  frs !! i = Some fr →
  ∃ ps product,
    o_products order = Some ps ∧ product ∈ ps ∧
    fr = SplitDialog.makeFragment order env st i product ∧
    num_lt Zero (SplitDialog.quantityOf st (p_id product)) ∧
    ¬ num_lt (p_quantity product) (SplitDialog.quantityOf st (p_id product)).
Proof.
  unfold SplitDialog.handleSplit. intros Hrun Hin Hfr.
  destruct (negb _); [by simplify_eq; apply elem_of_nil in Hin|].
  destruct (o_products order) as [ps|] eqn:Hps.
  - destruct (existsb _ ps) eqn:Hex;
      [by simplify_eq; apply elem_of_nil in Hin|].
    assert (frs = imap (SplitDialog.makeFragment order env st)
              (List.filter (λ product,
                 ngt (SplitDialog.quantityOf st (p_id product)) Zero) ps))
      as -> by (by destruct ok; simplify_eq;
                  apply list_elem_of_singleton in Hin).
    rewrite list_lookup_imap in Hfr.
    destruct (List.filter _ ps !! i) as [product|] eqn:Hp; [|done].
    simpl in Hfr. simplify_eq.
    apply list_elem_of_lookup_2, list_elem_of_In, filter_In in Hp.
    destruct Hp as [Hp Hq]. exists ps, product.
    split_and!; [done|by apply list_elem_of_In|done|by apply ngt_spec|].
    rewrite <- ngt_spec.
    by rewrite (existsb_false _ _ _ Hex Hp).
  - assert (frs = []) as ->
      by (by destruct ok; simplify_eq; apply list_elem_of_singleton in Hin).
    done.
Qed.

(** C1. In exact arithmetic the fragment value is [q / T * V], and [0]
    when [T = 0], in the form's [calculateFragmentValue] (the same function
    in both variants) and for every fragment the split dialog hands to
    [onSplit], where [T] and [V] are the product's total quantity and total
    price and [q] the fragment's quantity. The form evaluates [(q / T) * V]
    itself; the dialog evaluates [(V / T) * q], which is the same number
    only as far as nothing is rounded. *)
Theorem fragment_value_proportional :
  (∀ (props : Props) (st : State) (q : num),
     let T := Form.productTotalQuantity props (selectedProductId st) in
     let V := Form.productTotalValue props (selectedProductId st) in
     (T = Zero → Form.calculateFragmentValue props st q = Zero) ∧
     (T ≠ Zero → Form.calculateFragmentValue props st q = nmul (ndiv q T) V))
  ∧
  (∀ (order : Order) (env : Env) (ok : bool)
     (st st' : SplitDialog.DialogState) (out : list SplitDialog.DialogEffect)
     (frs : list SplitFragment) (i : nat) (fr : SplitFragment),
     SplitDialog.handleSplit order env ok st = (st', out) →
     frs ∈ splitLists out →
     frs !! i = Some fr →
     ∃ ps product,
       o_products order = Some ps ∧ product ∈ ps ∧
       s_product_name fr = p_product_name product ∧
       s_quantity fr = SplitDialog.quantityOf st (p_id product) ∧
       let T := p_quantity product in
       let V := p_total_price product in
       (T = Zero → s_value fr = Zero) ∧
       (T ≠ Zero → s_value fr = nmul (ndiv (s_quantity fr) T) V)).
Proof.
  split.
  - intros props st q T V. rewrite calculateFragmentValue_eq.
    fold T V. by case_decide.
  - intros order env ok st st' out frs i fr Hrun Hin Hfr.
    destruct (handleSplit_fragments _ _ _ _ _ _ _ _ _ Hrun Hin Hfr)
      as (ps & product & Hps & Hp & -> & Hpos & Hle).
    exists ps, product. split_and!; try done.
    intros T V. subst T V. split; intros HT.
    + by rewrite HT in Hle.
    + simpl. by apply nmul_ndiv_swap.
Qed.

Lemma fragment_value_proportional_witness :
  Form.calculateFragmentValue props1 (Strict.mount props1 env0) (of_Z 40)
    = of_Z 200
  ∧ ∃ fr, (SplitDialog.handleSplit order1 env0 true dialog1).2
            = [SplitDialog.OnSplit [fr]; SplitDialog.OnOpenChange false]
          ∧ s_quantity fr = of_Z 40
          ∧ s_value fr = nmul (ndiv (of_Z 40) (of_Z 100)) (of_Z 500).
Proof.
  split.
  - rewrite (proj2 (proj1 fragment_value_proportional props1
                      (Strict.mount props1 env0) (of_Z 40))).
    + vm_compute. f_equal. apply Qc_is_canon. reflexivity.
    + vm_compute. discriminate.
  - destruct (proj2 fragment_value_proportional order1 env0 true dialog1
                (SplitDialog.handleSplit order1 env0 true dialog1).1
                (SplitDialog.handleSplit order1 env0 true dialog1).2
                [SplitDialog.makeFragment order1 env0 dialog1 0 shirt]
                0%nat (SplitDialog.makeFragment order1 env0 dialog1 0 shirt))
      as (ps & product & Hps & Hp & Hname & Hq & _ & Hv).
    + reflexivity.
    + vm_compute. left.
    + reflexivity.
    + exists (SplitDialog.makeFragment order1 env0 dialog1 0 shirt).
      split; [reflexivity|]. split; [vm_compute; reflexivity|].
      injection Hps as <-.
      apply list_elem_of_In in Hp. destruct Hp as [<-|[<-|[]]].
      * apply Hv. vm_compute. discriminate.
      * discriminate Hname.
Defined.

(** C1, as stated, fails in double precision. The dialog accepts one unit
    of a product of 3 units worth 10; there [(10 / 3) * 1] is
    3.3333333333333335, whereas [(1 / 3) * 10], which the form returns for
    the same numbers, is 3.333333333333333. *)
Lemma dialog_value_not_proportional :
  (∃ fr, (SplitDialog.handleSplit order6 env0 true dialog6).2
           = [SplitDialog.OnSplit [fr]; SplitDialog.OnOpenChange false]
         ∧ s_quantity fr = of_Z 1)
  ∧ Binary64.splitValue 10 3 1 = 0x1.aaaaaaaaaaaabp+1%float
  ∧ Binary64.calculateFragmentValue 3 10 1 = 0x1.aaaaaaaaaaaaap+1%float
  ∧ PrimFloat.eqb (Binary64.splitValue 10 3 1)
                  (PrimFloat.mul (PrimFloat.div 1 3) 10) = false.
Proof.
  split; [|by vm_compute].
  eexists. split; [vm_compute; reflexivity|].
  vm_compute. apply (f_equal Fin), Qc_is_canon. reflexivity.
Qed.

(** ** Removing drafts *)

Lemma ifilter_from_above {A : Type} (index k : nat) (l : list A) :
  (index < k)%nat →
  ifilter_from (λ i _, bool_decide (i ≠ index)) k l = l.
Proof.
  revert k. induction l as [|x l IH]; intros k Hk; simpl; [done|].
  rewrite bool_decide_eq_true_2 by lia. f_equal. apply IH. lia.
Qed.

Lemma ifilter_from_delete {A : Type} (index k : nat) (l : list A) :
  ifilter_from (λ i _, bool_decide (i ≠ k + index)%nat) k l = delete index l.
Proof.
  revert index k. induction l as [|x l IH]; intros index k; simpl; [done|].
  destruct index as [|index]; simpl.
  - rewrite bool_decide_eq_false_2 by lia.
    replace (k + 0)%nat with k by lia. apply ifilter_from_above. lia.
  - rewrite bool_decide_eq_true_2 by lia. f_equal.
    replace (k + S index)%nat with (S k + index)%nat by lia. apply IH.
Qed.

(** The indexed filter of [removeFragment] deletes position [index]. *)
Lemma ifilter_delete {A : Type} (index : nat) (l : list A) :
  ifilter (λ i _, bool_decide (i ≠ index)) l = delete index l.
Proof. apply (ifilter_from_delete index 0). Qed.

Lemma removeFragment_fragments (index : nat) (st : State) :
  fragments (Form.removeFragment index st)
  = if bool_decide (1 < length (fragments st))%nat
    then delete index (fragments st) else fragments st.
Proof.
  unfold Form.removeFragment. case_bool_decide; [|done].
  simpl. apply ifilter_delete.
Qed.

Lemma removeFragment_nonempty (index : nat) (st : State) :
  fragments st ≠ [] → fragments (Form.removeFragment index st) ≠ [].
Proof.
  intros Hne. rewrite removeFragment_fragments.
  case_bool_decide as Hlen; [|done].
  destruct (fragments st) as [|x [|y l]]; simpl in Hlen; [lia..|].
  by destruct index.
Qed.

(** C5. With exactly one draft left, [removeFragment] changes nothing,
    whatever the index; hence from a non-empty draft list no sequence of
    removals brings the number of drafts below one. *)
Theorem removeFragment_keeps_last :
  (∀ (index : nat) (st : State),
     length (fragments st) = 1%nat → Form.removeFragment index st = st)
  ∧
  (∀ (indices : list nat) (st : State),
     fragments st ≠ [] →
     (1 ≤ length (fragments
                    (foldl (λ s index, Form.removeFragment index s) st indices)))%nat).
Proof.
  split.
  - intros index st Hlen. unfold Form.removeFragment.
    rewrite bool_decide_eq_false_2; [done|lia].
  - intros indices. induction indices as [|index indices IH]; intros st Hne.
    + simpl. destruct (fragments st); [done|simpl; lia].
    + simpl. apply IH. by apply removeFragment_nonempty.
Qed.

Lemma removeFragment_keeps_last_witness :
  Form.removeFragment 0 (Strict.mount props1 env0) = Strict.mount props1 env0
  ∧ (1 ≤ length (fragments
                   (foldl (λ s index, Form.removeFragment index s)
                          (Strict.addFragment env0 (Strict.mount props1 env0))
                          [0; 0; 1; 0]%nat)))%nat.
Proof.
  split.
  - apply (proj1 removeFragment_keeps_last 0%nat (Strict.mount props1 env0)).
    reflexivity.
  - apply (proj2 removeFragment_keeps_last [0; 0; 1; 0]%nat
             (Strict.addFragment env0 (Strict.mount props1 env0))).
    discriminate.
Defined.

(** ** Saving *)

Lemma Forall2_imap {A B : Type} (R : A → B → Prop) (f : nat → A → B)
    (l : list A) :
  (∀ i x, l !! i = Some x → R x (f i x)) → Forall2 R l (imap f l).
Proof.
  intros H. apply Forall2_same_length_lookup. split.
  - by rewrite length_imap.
  - intros i x y Hx Hy. rewrite list_lookup_imap, Hx in Hy.
    simpl in Hy. simplify_eq. by apply H.
Qed.

Lemma sor_truthy (s : option string) (d : string) :
  struthy s = true → Some (sor s d) = s.
Proof.
  destruct s as [x|]; simpl; [|done]. intros H. by rewrite H.
Qed.

Lemma strict_handleSave_valid (props : Props) (env : Env) (st : State) :
  Strict.isValid props st = true →
  ∃ finals,
    Strict.handleSave props env st
      = (st, [OnSave (otherProducts props (selectedProductId st) ++ finals)])
    ∧ Forall2 (finalizedFrom props st) (fragments st) finals.
Proof.
  intros Hvalid. unfold Strict.handleSave. rewrite Hvalid. simpl.
  eexists. split; [reflexivity|].
  apply Forall2_imap. intros i d _. unfold finalizedFrom, Form.savedId. simpl.
  split_and!; try done.
  - apply sor_truthy.
  - by intros [date ->].
Qed.

Lemma partial_handleSave_valid (props : Props) (env : Env) (st : State) :
  Partial.isValid props st = true →
  ∃ finals,
    Partial.handleSave props env st
      = (st, [OnSave (otherProducts props (selectedProductId st) ++ finals)])
    ∧ Forall2 (finalizedFrom props st) (fragments st) finals.
Proof.
  intros Hvalid. unfold Partial.handleSave. rewrite Hvalid. simpl.
  eexists. split; [reflexivity|].
  apply Forall2_imap. intros i d _. unfold finalizedFrom, Form.savedId. simpl.
  split_and!; try done.
  - apply sor_truthy.
  - by intros [date ->].
Qed.

Lemma filter_none {A : Type} (P : A → Prop) `{∀ x, Decision (P x)}
    (l : list A) :
  Forall (λ x, ¬ P x) l → filter P l = [].
Proof.
  induction 1 as [|x l Hx _ IH]; [done|]. by rewrite filter_cons_False.
Qed.

(** In a saved list the fragments of every other product are those of the
    persisted list, in the same order and number. *)
Lemma merged_other_products (props : Props) (st : State)
    (finals : list Fragment) (p : string) :
  Forall2 (finalizedFrom props st) (fragments st) finals →
  p ≠ selectedProductId st →
  filter (λ f, f_productId f = Some p)
         (otherProducts props (selectedProductId st) ++ finals)
  = filter (λ f, f_productId f = Some p) (initialFragments props).
Proof.
  intros Hfin Hp. rewrite filter_app.
  assert (filter (λ f, f_productId f = Some p) finals = []) as ->.
  { apply filter_none.
    induction Hfin as [|d f ds fs (_ & Hf & _) _ IH]; constructor; [|done].
    congruence. }
  rewrite app_nil_r. unfold otherProducts. rewrite list_filter_filter.
  apply list_filter_iff. intros f. split; [by intros [? _]|].
  intros Hf. split; [done|congruence].
Qed.

(** C6. On a valid draft list, [handleSave] of either form variant hands
    to [onSave] exactly the persisted fragments whose product differs from
    the selected one, unchanged and in their order, followed by one
    finalized fragment per draft, in the drafts' order. *)
Theorem handleSave_merges (props : Props) (env : Env) (st : State) :
  (Strict.isValid props st = true →
   ∃ finals,
     Strict.handleSave props env st
       = (st, [OnSave (filter (λ f, f_productId f ≠ Some (selectedProductId st))
                              (initialFragments props) ++ finals)])
     ∧ Forall2 (finalizedFrom props st) (fragments st) finals)
  ∧
  (Partial.isValid props st = true →
   ∃ finals,
     Partial.handleSave props env st
       = (st, [OnSave (filter (λ f, f_productId f ≠ Some (selectedProductId st))
                              (initialFragments props) ++ finals)])
     ∧ Forall2 (finalizedFrom props st) (fragments st) finals).
Proof.
  split; intros Hvalid.
  - by apply strict_handleSave_valid.
  - by apply partial_handleSave_valid.
Qed.

Lemma handleSave_merges_witness :
  (∃ finals,
     Strict.handleSave props2 env0 strictValid
       = (strictValid, [OnSave ([capFragment] ++ finals)])
     ∧ Forall2 (finalizedFrom props2 strictValid) (fragments strictValid) finals)
  ∧
  (∃ finals,
     Partial.handleSave props2 env0 partialValid
       = (partialValid, [OnSave ([capFragment] ++ finals)])
     ∧ Forall2 (finalizedFrom props2 partialValid) (fragments partialValid) finals).
Proof.
  split.
  - apply (proj1 (handleSave_merges props2 env0 strictValid)).
    vm_compute. reflexivity.
  - apply (proj2 (handleSave_merges props2 env0 partialValid)).
    vm_compute. reflexivity.
Defined.

(** Closes equations between computed numbers, options and lists of them. *)
Ltac num_eq :=
  repeat match goal with
         | |- Fin _ = Fin _ => apply (f_equal Fin), Qc_is_canon; reflexivity
         | |- Some _ = Some _ => apply (f_equal Some)
         | |- _ :: _ = _ :: _ => f_equal
         | |- _ => reflexivity
         end.

(** The example of the specification: 100 units worth 500 split into 40 and
    60 are saved with values 200 and 300, after the untouched fragment of
    the other product. *)
Example strictValid_saved_values :
  (λ f, f_value f) <$> default [] (head (savedLists (Strict.handleSave props2 env0 strictValid).2))
  = [Some (of_Z 80); Some (of_Z 200); Some (of_Z 300)].
Proof. vm_compute. num_eq. Qed.

(** ** Refused saves *)

Lemma nor0_default (x : option num) :
  x ≠ Some NaN → nor0 x = default Zero x.
Proof.
  destruct x as [[q| | |]|]; simpl; try done.
  case_bool_decide as H; [done|]. by subst.
Qed.

(** The total the code computes is the drafts' total, unless some quantity
    is [NaN], which the code counts as zero. *)
Lemma total_code_or_nan (st : State) :
  Form.getTotalFragmentQuantity st = totalQuantity (fragments st)
  ∨ totalQuantity (fragments st) = NaN.
Proof.
  rewrite getTotalFragmentQuantity_foldr. unfold totalQuantity.
  induction (fragments st) as [|f l IH]; [by left|].
  rewrite !fmap_cons. cbn [foldr].
  destruct (decide (f_quantity f = Some NaN)) as [Hq|Hq].
  - right. by rewrite Hq.
  - rewrite (nor0_default _ Hq). destruct IH as [->| ->]; [by left|right].
    by destruct (default Zero (f_quantity f)).
Qed.

Lemma productTotalQuantity_not_nan (props : Props) (sel : string) :
  Form.productTotalQuantity props sel ≠ NaN.
Proof. apply nor0_not_nan. Qed.

Lemma strict_handleSave_invalid (props : Props) (env : Env) (st : State) :
  Strict.isValid props st = false →
  ∃ m, Strict.handleSave props env st = (st, [Toast m]) ∧ violated props st m.
Proof.
  intros Hinv. unfold Strict.handleSave. rewrite Hinv. simpl.
  eexists. split; [reflexivity|]. simpl. split_and!; try done.
  intros [Heq Hall]. rewrite <- total_of_complete in Heq by done.
  assert (Strict.isValid props st = true) by (by apply strict_isValid_unfold).
  congruence.
Qed.

Lemma partial_handleSave_invalid (props : Props) (env : Env) (st : State) :
  Partial.isValid props st = false →
  ∃ m, Partial.handleSave props env st = (st, [Toast m]) ∧ violated props st m.
Proof.
  intros Hinv. unfold Partial.handleSave. rewrite Hinv. simpl.
  eexists. split; [reflexivity|].
  assert (¬ (num_lt Zero (totalQuantity (fragments st))
             ∧ num_le (totalQuantity (fragments st))
                      (Form.productTotalQuantity props (selectedProductId st))
             ∧ Forall complete (fragments st))) as Hno
    by (intros (Hpos & Hle & Hall);
        rewrite <- total_of_complete in Hpos, Hle by done;
        assert (Partial.isValid props st = true)
          by (by apply partial_isValid_unfold);
        congruence).
  destruct (nseq _ Zero) eqn:Hzero; [|destruct (ngt _ _) eqn:Hgt]; simpl.
  - apply nseq_Zero in Hzero.
    destruct (total_code_or_nan st) as [Heq|Hnan].
    + rewrite <- Heq, Hzero. apply num_lt_irrefl.
    + rewrite Hnan. by inversion 1.
  - apply ngt_spec in Hgt. split_and!; try done.
    destruct (total_code_or_nan st) as [Heq|Hnan].
    + rewrite <- Heq. intros Hle. by eapply num_le_not_lt.
    + rewrite Hnan. by intros [H|[_ H]]; [inversion H|].
  - intros Hall. apply Hno.
    pose proof (total_of_complete st Hall) as Heq.
    destruct (totalQuantity_complete _ Hall) as [[_ Hz]|[_ Hpos]].
    { rewrite Heq, Hz in Hzero. done. }
    split_and!; try done.
    destruct (num_le_or_lt (totalQuantity (fragments st))
                (Form.productTotalQuantity props (selectedProductId st)))
      as [Hle|Hlt]; try done.
    + by eapply num_lt_not_nan_r.
    + apply productTotalQuantity_not_nan.
    + rewrite <- Heq in Hlt. apply ngt_spec in Hlt. congruence.
Qed.

Lemma handleSplit_invalid (order : Order) (env : Env) (ok : bool)
    (st : SplitDialog.DialogState) :
  noQuantity st ∨ someExcess order st →
  ∃ a, SplitDialog.handleSplit order env ok st
         = (SplitDialog.mkDialogState (SplitDialog.quantities st) false,
            [SplitDialog.ShowAlert a])
       ∧ alertViolated order st a.
Proof.
  intros Hinv. unfold SplitDialog.handleSplit.
  case_bool_decide as Hex; simpl.
  - destruct Hinv as [Hno|(ps & product & Hps & Hin & Hlt)].
    { destruct Hex as (id & q & Hq & Hpos). apply ngt_spec in Hpos.
      by destruct (Hno id q). }
    rewrite Hps.
    assert (existsb (λ product, ngt (SplitDialog.quantityOf st (p_id product))
                                    (p_quantity product)) ps = true) as ->.
    { apply existsb_exists. exists product.
      split; [by apply list_elem_of_In|by apply ngt_spec]. }
    exists SplitDialog.ExceedsProduct. split; [done|].
    simpl. by exists ps, product.
  - exists SplitDialog.SpecifyQuantity. split; [done|].
    intros id q Hq Hpos. apply Hex. exists id, q. split; [done|].
    by apply ngt_spec.
Qed.

(** The refusal itself: in the three handlers a save attempt on a state
    that fails validation shows one message, invokes neither [onSave] nor
    [onSplit], and leaves the state as it was (in the dialog the [loading]
    flag is back to [false]). The second form variant and the dialog choose
    the message by the condition that failed; the first form variant has
    one message, which states the whole rule. *)
Theorem invalid_save_refused :
  (∀ (props : Props) (env : Env) (st : State),
     Strict.isValid props st = false →
     ∃ m, Strict.handleSave props env st = (st, [Toast m])
          ∧ violated props st m)
  ∧
  (∀ (props : Props) (env : Env) (st : State),
     Partial.isValid props st = false →
     ∃ m, Partial.handleSave props env st = (st, [Toast m])
          ∧ violated props st m)
  ∧
  (∀ (order : Order) (env : Env) (ok : bool) (st : SplitDialog.DialogState),
     noQuantity st ∨ someExcess order st →
     ∃ a, SplitDialog.handleSplit order env ok st
            = (SplitDialog.mkDialogState (SplitDialog.quantities st) false,
               [SplitDialog.ShowAlert a])
          ∧ alertViolated order st a).
Proof.
  split_and!.
  - apply strict_handleSave_invalid.
  - apply partial_handleSave_invalid.
  - apply handleSplit_invalid.
Qed.

Lemma invalid_save_refused_witness :
  (∃ m, Strict.handleSave props2 env0 (Strict.mount props2 env0)
          = (Strict.mount props2 env0, [Toast m])
        ∧ violated props2 (Strict.mount props2 env0) m)
  ∧
  (∃ m, Partial.handleSave props2 env0 partialZero = (partialZero, [Toast m])
        ∧ violated props2 partialZero m)
  ∧
  (∃ a, SplitDialog.handleSplit order1 env0 true
          (SplitDialog.mkDialogState ∅ false)
          = (SplitDialog.mkDialogState ∅ false, [SplitDialog.ShowAlert a])
        ∧ alertViolated order1 (SplitDialog.mkDialogState ∅ false) a).
Proof.
  split_and!.
  - apply (proj1 invalid_save_refused props2 env0 (Strict.mount props2 env0)).
    vm_compute. reflexivity.
  - apply (proj1 (proj2 invalid_save_refused) props2 env0 partialZero).
    vm_compute. reflexivity.
  - apply (proj2 (proj2 invalid_save_refused) order1 env0 true
             (SplitDialog.mkDialogState ∅ false)).
    left. intros id q Hq. discriminate Hq.
Defined.


Example partialZero_message :
  (Partial.handleSave props2 env0 partialZero).2 = [Toast AtLeastOneUnit].
Proof. vm_compute. reflexivity. Qed.

(** ** Identifiers of saved fragments *)

(** C7. In the first form variant the identifiers given at save time are
    not always distinct: after adding two drafts, removing the first and
    adding another, two drafts carry sequence number 3, and saving within
    one millisecond gives both the same identifier. *)
Theorem saved_ids_collide :
  ∃ saved,
    savedLists (Strict.run props3 addRemoveAdd (Strict.mount props3 env0)).2
      = [saved]
    ∧ f_fragmentNumber <$> saved = [Some 2; Some 3; Some 3]
    ∧ f_id <$> saved
      = [Some "o3-frag-2-1700000000000";
         Some "o3-frag-3-1700000000000";
         Some "o3-frag-3-1700000000000"]
    ∧ ¬ NoDup (f_id <$> saved).
Proof.
  eexists. split; [vm_compute; reflexivity|].
  split; [reflexivity|]. split; [reflexivity|].
  intros Hnd. apply NoDup_cons in Hnd as [_ Hnd].
  apply NoDup_cons in Hnd as [Hnotin _]. apply Hnotin. left.
Qed.

(** The second form variant numbers drafts in the same way and collides on
    the same session. *)
Lemma partial_ids_collide_too :
  ∃ saved,
    savedLists (Partial.run props3 addRemoveAdd (Partial.mount props3 env0)).2
      = [saved]
    ∧ ¬ NoDup (f_id <$> saved).
Proof.
  eexists. split; [vm_compute; reflexivity|].
  intros Hnd. apply NoDup_cons in Hnd as [_ Hnd].
  apply NoDup_cons in Hnd as [Hnotin _]. apply Hnotin. left.
Qed.

(** What does hold at save time in both variants: a draft that has an
    identifier keeps it, one without gets the identifier built from the
    order, its sequence number and the clock; every saved draft carries the
    order, the selected product and the proportional value. *)
Lemma savedId_fresh (props : Props) (env : Env) (index : nat) (d : Fragment) :
  struthy (f_id d) = false →
  Form.savedId props env index d
  = o_id (order props) +:+ "-frag-" +:+ pretty (fragmentNumberOr d index)
      +:+ "-" +:+ pretty (clock env index).
Proof.
  unfold Form.savedId. destruct (f_id d) as [x|]; simpl; [|done].
  by intros ->.
Qed.

Lemma saved_fragments_stamped (props : Props) (env : Env) (st : State)
    (i : nat) (d : Fragment) :
  fragments st !! i = Some d →
  (Strict.isValid props st = true →
   ∃ saved f,
     (Strict.handleSave props env st).2 = [OnSave saved]
     ∧ saved !! (length (otherProducts props (selectedProductId st)) + i)%nat
       = Some f
     ∧ f_id f = Some (Form.savedId props env i d)
     ∧ finalizedFrom props st d f)
  ∧
  (Partial.isValid props st = true →
   ∃ saved f,
     (Partial.handleSave props env st).2 = [OnSave saved]
     ∧ saved !! (length (otherProducts props (selectedProductId st)) + i)%nat
       = Some f
     ∧ f_id f = Some (Form.savedId props env i d)
     ∧ finalizedFrom props st d f).
Proof.
  intros Hd. split; intros Hvalid.
  - unfold Strict.handleSave. rewrite Hvalid. simpl.
    eexists _, _. split; [reflexivity|].
    rewrite lookup_app_r by (unfold otherProducts; lia).
    replace (_ + i - _)%nat with i by (unfold otherProducts; lia).
    rewrite list_lookup_imap, Hd. simpl. split; [reflexivity|].
    split; [reflexivity|]. unfold finalizedFrom. simpl.
    split_and!; try done; [apply sor_truthy|by intros [date ->]].
  - unfold Partial.handleSave. rewrite Hvalid. simpl.
    eexists _, _. split; [reflexivity|].
    rewrite lookup_app_r by (unfold otherProducts; lia).
    replace (_ + i - _)%nat with i by (unfold otherProducts; lia).
    rewrite list_lookup_imap, Hd. simpl. split; [reflexivity|].
    split; [reflexivity|]. unfold finalizedFrom. simpl.
    split_and!; try done; [apply sor_truthy|by intros [date ->]].
Qed.

(** X13. The split dialog of [OrderSplitDialog.tsx] numbers by array
    position, so within one call (one clock value) the identifiers of the
    fragments it hands to [onSplit] are pairwise distinct. *)
Lemma handleSplit_ids_distinct (order : Order) (env : Env) (ok : bool)
    (st : SplitDialog.DialogState) (t : Z) (frs : list SplitFragment) :
  (∀ i, clock env i = t) →
  frs ∈ splitLists (SplitDialog.handleSplit order env ok st).2 →
  NoDup (s_id <$> frs).
Proof.
  intros Hclock Hin. apply NoDup_alt. intros i j x Hi Hj.
  rewrite list_lookup_fmap in Hi, Hj.
  destruct (frs !! i) as [fi|] eqn:Hfi; [|done].
  destruct (frs !! j) as [fj|] eqn:Hfj; [|done].
  simpl in Hi, Hj. injection Hi as <-. injection Hj as Hj.
  destruct (handleSplit_fragments order env ok st _ _ frs i fi
              (surjective_pairing _) Hin Hfi) as (? & ? & _ & _ & -> & _).
  destruct (handleSplit_fragments order env ok st _ _ frs j fj
              (surjective_pairing _) Hin Hfj) as (? & ? & _ & _ & -> & _).
  simpl in Hj. rewrite !Hclock in Hj.
  do 4 apply (inj (String.app _)) in Hj.
  by apply (inj pretty) in Hj.
Qed.

(** ** Adding drafts *)

Lemma date_ltb_spec (a b : Date) :
  date_ltb a b = true ↔ (day a < day b)%Z ∨ (day a = day b ∧ (ms a < ms b)%N).
Proof.
  unfold date_ltb.
  rewrite orb_true_iff, andb_true_iff, !bool_decide_eq_true. done.
Qed.

Lemma startOfDay_not_after (d : Date) : date_ltb d (startOfDay d) = false.
Proof.
  apply not_true_iff_false. rewrite date_ltb_spec. simpl. lia.
Qed.

(** X25. The second form variant adds exactly one draft, numbered after
    the list length, of quantity 1, dated one day after the last draft and
    never before the start of today. *)
Lemma partial_addFragment_spec (env : Env) (st : State) :
  ∃ d date,
    fragments (Partial.addFragment env st) = fragments st ++ [d]
    ∧ f_fragmentNumber d = Some (Z.of_nat (length (fragments st)) + 1)
    ∧ f_quantity d = Some One
    ∧ f_scheduledDate d = Some date
    ∧ date_ltb date (startOfDay (today env)) = false
    ∧ (day (today env) ≤ day date)%Z
    ∧ match last (fragments st) ≫= f_scheduledDate with
      | Some lastDate =>
          date = (if date_ltb (addDays lastDate 1) (startOfDay (today env))
                  then startOfDay (today env) else addDays lastDate 1)
      | None => date = today env
      end.
Proof.
  unfold Partial.addFragment. simpl.
  destruct (last (fragments st) ≫= f_scheduledDate) as [lastDate|].
  - destruct (date_ltb (addDays lastDate 1) (startOfDay (today env))) eqn:Hlt;
      eexists _, _; (split; [reflexivity|]); simpl;
      split_and!; try reflexivity; try done.
    + apply (startOfDay_not_after (startOfDay (today env))).
    + apply not_true_iff_false in Hlt. rewrite date_ltb_spec in Hlt.
      simpl in *. lia.
  - rewrite startOfDay_not_after. eexists _, _. split; [reflexivity|].
    simpl. split_and!; try reflexivity. apply startOfDay_not_after.
Qed.

(** The first form variant does the same except for the clamp: the date is
    one day after the last draft's date, whatever today's date is. *)
Lemma strict_addFragment_spec (env : Env) (st : State) :
  ∃ d date,
    fragments (Strict.addFragment env st) = fragments st ++ [d]
    ∧ f_fragmentNumber d = Some (Z.of_nat (length (fragments st)) + 1)
    ∧ f_quantity d = Some One
    ∧ f_scheduledDate d = Some date
    ∧ match last (fragments st) ≫= f_scheduledDate with
      | Some lastDate => date = addDays lastDate 1
      | None => date = today env
      end.
Proof.
  unfold Strict.addFragment. simpl. eexists _, _.
  split; [reflexivity|]. simpl. split_and!; try reflexivity.
  by destruct (last (fragments st) ≫= f_scheduledDate).
Qed.

(** C8. In the first form variant [addFragment] does not clamp the date:
    after a draft dated ten days ago, the added draft (number 2, quantity
    1) is dated nine days ago, before today. *)
Theorem strict_addFragment_unclamped :
  ∃ d0 d1,
    fragments (Strict.run props2 addAfterPast (Strict.mount props2 env0)).1
      = [d0; d1]
    ∧ f_scheduledDate d0 = Some (mkDate 19990 0)
    ∧ f_fragmentNumber d1 = Some 2
    ∧ f_quantity d1 = Some One
    ∧ f_scheduledDate d1 = Some (mkDate 19991 0)
    ∧ date_ltb (mkDate 19991 0) (startOfDay (today env0)) = true.
Proof.
  eexists _, _. split; [vm_compute; reflexivity|].
  split_and!; reflexivity.
Qed.

(** On the same session the second form variant dates the added draft at
    the start of today. *)
Example partial_addFragment_clamped :
  f_scheduledDate <$>
    fragments (Partial.run props2 addAfterPast (Partial.mount props2 env0)).1
  = [Some (mkDate 19990 0); Some (mkDate 20000 0)].
Proof. vm_compute. reflexivity. Qed.

(** ** Sessions: what a run saves *)

Lemma strict_handleSave_state (props : Props) (env : Env) (st : State) :
  (Strict.handleSave props env st).1 = st.
Proof. unfold Strict.handleSave. by destruct (negb _). Qed.

Lemma partial_handleSave_state (props : Props) (env : Env) (st : State) :
  (Partial.handleSave props env st).1 = st.
Proof. unfold Partial.handleSave. by destruct (negb _). Qed.

Lemma strict_step_selected (props : Props) (env : Env) (ev : Event)
    (st : State) :
  (∀ v, ev ≠ SelectProduct v) →
  selectedProductId (Strict.step props env ev st).1 = selectedProductId st.
Proof.
  intros Hev. destruct ev; simpl; try done.
  - unfold Form.removeFragment. by case_bool_decide.
  - by destruct (Hev value).
  - by rewrite strict_handleSave_state.
Qed.

Lemma partial_step_selected (props : Props) (env : Env) (ev : Event)
    (st : State) :
  (∀ v, ev ≠ SelectProduct v) →
  selectedProductId (Partial.step props env ev st).1 = selectedProductId st.
Proof.
  intros Hev. destruct ev; simpl; try done.
  - unfold Form.removeFragment. by case_bool_decide.
  - by destruct (Hev value).
  - by rewrite partial_handleSave_state.
Qed.

(** Only [Save] on a valid state reaches [onSave], with the merged list. *)
Lemma strict_step_saved (props : Props) (env : Env) (ev : Event) (st : State)
    (saved : list Fragment) :
  saved ∈ savedLists (Strict.step props env ev st).2 →
  ∃ finals,
    saved = otherProducts props (selectedProductId st) ++ finals
    ∧ Forall2 (finalizedFrom props st) (fragments st) finals.
Proof.
  destruct ev; simpl; try (by intros ?%elem_of_nil).
  destruct (Strict.isValid props st) eqn:Hvalid.
  - destruct (strict_handleSave_valid props env st Hvalid)
      as (finals & -> & Hfin).
    simpl. intros ->%list_elem_of_singleton. eauto.
  - destruct (strict_handleSave_invalid props env st Hvalid) as (m & -> & _).
    by intros ?%elem_of_nil.
Qed.

Lemma partial_step_saved (props : Props) (env : Env) (ev : Event) (st : State)
    (saved : list Fragment) :
  saved ∈ savedLists (Partial.step props env ev st).2 →
  ∃ finals,
    saved = otherProducts props (selectedProductId st) ++ finals
    ∧ Forall2 (finalizedFrom props st) (fragments st) finals.
Proof.
  destruct ev; simpl; try (by intros ?%elem_of_nil).
  destruct (Partial.isValid props st) eqn:Hvalid.
  - destruct (partial_handleSave_valid props env st Hvalid)
      as (finals & -> & Hfin).
    simpl. intros ->%list_elem_of_singleton. eauto.
  - destruct (partial_handleSave_invalid props env st Hvalid) as (m & -> & _).
    by intros ?%elem_of_nil.
Qed.

Lemma savedLists_app (out1 out2 : list Effect) :
  savedLists (out1 ++ out2) = savedLists out1 ++ savedLists out2.
Proof. apply omap_app. Qed.

Lemma strict_run_cons (props : Props) (env : Env) (ev : Event)
    (evs : list (Env * Event)) (st : State) :
  Strict.run props ((env, ev) :: evs) st
  = ((Strict.run props evs (Strict.step props env ev st).1).1,
     (Strict.step props env ev st).2
       ++ (Strict.run props evs (Strict.step props env ev st).1).2).
Proof.
  simpl. destruct (Strict.step props env ev st) as [st1 out1]. simpl.
  by destruct (Strict.run props evs st1).
Qed.

Lemma partial_run_cons (props : Props) (env : Env) (ev : Event)
    (evs : list (Env * Event)) (st : State) :
  Partial.run props ((env, ev) :: evs) st
  = ((Partial.run props evs (Partial.step props env ev st).1).1,
     (Partial.step props env ev st).2
       ++ (Partial.run props evs (Partial.step props env ev st).1).2).
Proof.
  simpl. destruct (Partial.step props env ev st) as [st1 out1]. simpl.
  by destruct (Partial.run props evs st1).
Qed.

(** While the selection does not change, every list a run saves keeps, for
    each product other than the selected one, exactly its persisted
    fragments. *)
Lemma strict_run_saved (props : Props) (evs : list (Env * Event)) (st : State)
    (saved : list Fragment) (p : string) :
  Forall (λ e, ∀ v, e.2 ≠ SelectProduct v) evs →
  saved ∈ savedLists (Strict.run props evs st).2 →
  p ≠ selectedProductId st →
  filter (λ f, f_productId f = Some p) saved
  = filter (λ f, f_productId f = Some p) (initialFragments props).
Proof.
  intros Hevs. revert st.
  induction Hevs as [|[env ev] evs Hev _ IH]; intros st Hin Hp.
  - by apply elem_of_nil in Hin.
  - rewrite strict_run_cons in Hin. simpl in Hin.
    rewrite savedLists_app in Hin. apply elem_of_app in Hin as [Hin|Hin].
    + apply strict_step_saved in Hin as (finals & -> & Hfin).
      by apply merged_other_products.
    + apply (IH _ Hin). by rewrite strict_step_selected.
Qed.

Lemma partial_run_saved (props : Props) (evs : list (Env * Event)) (st : State)
    (saved : list Fragment) (p : string) :
  Forall (λ e, ∀ v, e.2 ≠ SelectProduct v) evs →
  saved ∈ savedLists (Partial.run props evs st).2 →
  p ≠ selectedProductId st →
  filter (λ f, f_productId f = Some p) saved
  = filter (λ f, f_productId f = Some p) (initialFragments props).
Proof.
  intros Hevs. revert st.
  induction Hevs as [|[env ev] evs Hev _ IH]; intros st Hin Hp.
  - by apply elem_of_nil in Hin.
  - rewrite partial_run_cons in Hin. simpl in Hin.
    rewrite savedLists_app in Hin. apply elem_of_app in Hin as [Hin|Hin].
    + apply partial_step_saved in Hin as (finals & -> & Hfin).
      by apply merged_other_products.
    + apply (IH _ Hin). by rewrite partial_step_selected.
Qed.

(** ** Switching the selected product *)

(** The claim that drafts entered for a product survive a switch fails: the
    draft of 40 units entered for the first product is dropped when the
    second product is selected, and the list saved afterwards holds no
    fragment of the first product. *)
Lemma switch_loses_drafts :
  ∃ draft saved,
    fragments (Strict.run props1 (take 1 editThenSwitch)
                 (Strict.mount props1 env0)).1 = [draft]
    ∧ f_productId draft = Some "p1"
    ∧ f_quantity draft = Some (of_Z 40)
    ∧ savedLists (Strict.run props1 editThenSwitch
                    (Strict.mount props1 env0)).2 = [saved]
    ∧ length saved = 1%nat
    ∧ Forall (λ f, f_productId f ≠ Some "p1") saved.
Proof.
  eexists _, _. split; [vm_compute; reflexivity|].
  split; [reflexivity|]. split; [reflexivity|].
  split; [vm_compute; reflexivity|]. split; [reflexivity|].
  repeat constructor. discriminate.
Qed.

(** C9 (amended). Selecting another product re-initializes the draft list
    for it from the persisted fragments alone, so drafts entered before are
    discarded; what the final save keeps for every other product is exactly
    that product's persisted fragments, unchanged and in order. *)
Theorem switch_keeps_persisted_only :
  (∀ (props : Props) (env : Env) (st : State) (p2 : string)
     (evs : list (Env * Event)) (saved : list Fragment),
     p2 ≠ selectedProductId st →
     Forall (λ e, ∀ v, e.2 ≠ SelectProduct v) evs →
     saved ∈ savedLists
               (Strict.run props evs (Strict.selectProduct props p2 env st)).2 →
     fragments (Strict.selectProduct props p2 env st)
       = Strict.initializeFragments props p2 env
     ∧ ∀ p, p ≠ p2 →
         filter (λ f, f_productId f = Some p) saved
         = filter (λ f, f_productId f = Some p) (initialFragments props))
  ∧
  (∀ (props : Props) (env : Env) (st : State) (p2 : string)
     (evs : list (Env * Event)) (saved : list Fragment),
     p2 ≠ selectedProductId st →
     Forall (λ e, ∀ v, e.2 ≠ SelectProduct v) evs →
     saved ∈ savedLists
               (Partial.run props evs (Partial.selectProduct props p2 env st)).2 →
     fragments (Partial.selectProduct props p2 env st)
       = Partial.initializeFragments props p2 env
     ∧ ∀ p, p ≠ p2 →
         filter (λ f, f_productId f = Some p) saved
         = filter (λ f, f_productId f = Some p) (initialFragments props)).
Proof.
  split; intros props env st p2 evs saved Hp2 Hevs Hin.
  - unfold Strict.selectProduct in *.
    rewrite bool_decide_eq_false_2 in * by done.
    split; [done|]. intros p Hp. by eapply strict_run_saved.
  - unfold Partial.selectProduct in *.
    rewrite bool_decide_eq_false_2 in * by done.
    split; [done|]. intros p Hp. by eapply partial_run_saved.
Qed.

Lemma switch_keeps_persisted_only_witness :
  (let st := (Strict.run props2 (take 1 editThenSwitch)
                (Strict.mount props2 env0)).1 in
   let saved :=
     default [] (head (savedLists
       (Strict.run props2 (drop 2 editThenSwitch)
          (Strict.selectProduct props2 "p2" env0 st)).2)) in
   length saved = 1%nat
   ∧ fragments (Strict.selectProduct props2 "p2" env0 st)
     = Strict.initializeFragments props2 "p2" env0
   ∧ ∀ p, p ≠ "p2" →
       filter (λ f, f_productId f = Some p) saved
       = filter (λ f, f_productId f = Some p) (initialFragments props2))
  ∧
  (let st := (Partial.run props2 (take 1 editThenSwitch)
                (Partial.mount props2 env0)).1 in
   let saved :=
     default [] (head (savedLists
       (Partial.run props2 (drop 2 editThenSwitch)
          (Partial.selectProduct props2 "p2" env0 st)).2)) in
   length saved = 1%nat
   ∧ fragments (Partial.selectProduct props2 "p2" env0 st)
     = Partial.initializeFragments props2 "p2" env0
   ∧ ∀ p, p ≠ "p2" →
       filter (λ f, f_productId f = Some p) saved
       = filter (λ f, f_productId f = Some p) (initialFragments props2)).
Proof.
  split; intros st saved; (split; [vm_compute; reflexivity|]).
  - apply (proj1 switch_keeps_persisted_only props2 env0 st "p2"
             (drop 2 editThenSwitch) saved).
    + vm_compute. discriminate.
    + repeat constructor; intros v; discriminate.
    + vm_compute. left.
  - apply (proj2 switch_keeps_persisted_only props2 env0 st "p2"
             (drop 2 editThenSwitch) saved).
    + vm_compute. discriminate.
    + repeat constructor; intros v; discriminate.
    + vm_compute. left.
Defined.

(** ** The draft list is never empty *)

Lemma strict_initializeFragments_nonempty (props : Props) (sel : string)
    (env : Env) :
  Strict.initializeFragments props sel env ≠ [].
Proof.
  unfold Strict.initializeFragments. case_bool_decide as Hlen; [|done].
  destruct (filter _ _); [simpl in Hlen; lia|done].
Qed.

Lemma partial_initializeFragments_nonempty (props : Props) (sel : string)
    (env : Env) :
  Partial.initializeFragments props sel env ≠ [].
Proof.
  unfold Partial.initializeFragments. case_bool_decide as Hlen; [|done].
  destruct (filter _ _); [simpl in Hlen; lia|done].
Qed.

Lemma updateFragment_nonempty (index : nat) (fv : FieldValue) (st : State) :
  fragments st ≠ [] → fragments (Form.updateFragment index fv st) ≠ [].
Proof. simpl. by destruct (fragments st). Qed.

Lemma strict_step_nonempty (props : Props) (env : Env) (ev : Event)
    (st : State) :
  fragments st ≠ [] → fragments (Strict.step props env ev st).1 ≠ [].
Proof.
  intros Hne. destruct ev; simpl.
  - by destruct (fragments st).
  - by apply removeFragment_nonempty.
  - by destruct (fragments st).
  - by destruct (fragments st).
  - unfold Strict.selectProduct. case_bool_decide; [done|].
    apply strict_initializeFragments_nonempty.
  - by rewrite strict_handleSave_state.
Qed.

Lemma partial_step_nonempty (props : Props) (env : Env) (ev : Event)
    (st : State) :
  fragments st ≠ [] → fragments (Partial.step props env ev st).1 ≠ [].
Proof.
  intros Hne. destruct ev; simpl.
  - by destruct (fragments st).
  - by apply removeFragment_nonempty.
  - by destruct (fragments st).
  - by destruct (fragments st).
  - unfold Partial.selectProduct. case_bool_decide; [done|].
    apply partial_initializeFragments_nonempty.
  - by rewrite partial_handleSave_state.
Qed.

(** From the first render on, whatever the user does, the form holds at
    least one draft. *)
Lemma strict_run_nonempty (props : Props) (evs : list (Env * Event))
    (st : State) :
  fragments st ≠ [] → fragments (Strict.run props evs st).1 ≠ [].
Proof.
  revert st. induction evs as [|[env ev] evs IH]; intros st Hne; [done|].
  rewrite strict_run_cons. simpl. by apply IH, strict_step_nonempty.
Qed.

Lemma partial_run_nonempty (props : Props) (evs : list (Env * Event))
    (st : State) :
  fragments st ≠ [] → fragments (Partial.run props evs st).1 ≠ [].
Proof.
  revert st. induction evs as [|[env ev] evs IH]; intros st Hne; [done|].
  rewrite partial_run_cons. simpl. by apply IH, partial_step_nonempty.
Qed.

(** ** Totals of values *)

Lemma num_le_fin (a b : Qc) : num_le (Fin a) (Fin b) ↔ (a ≤ b)%Qc.
Proof.
  unfold num_le. split.
  - intros [H|[[= ->] _]]; [|apply Qcle_refl].
    inversion H; subst. by apply Qclt_le_weak.
  - intros [H| ->]%Qcle_lt_or_eq; [left; by constructor|by right].
Qed.

Lemma getTotalFragmentValue_foldr (props : Props) (st : State) :
  Form.getTotalFragmentValue props st
  = foldr nadd Zero
      ((λ f, Form.calculateFragmentValue props st (nor0 (f_quantity f)))
         <$> fragments st).
Proof.
  unfold Form.getTotalFragmentValue.
  by rewrite (fold_left_nadd
                (λ f, Form.calculateFragmentValue props st (nor0 (f_quantity f)))),
     nadd_Zero_l.
Qed.

(** On rationals, the sum of the values is the value of the sum. *)
Lemma values_additive (props : Props) (st : State) :
  finite (Form.productTotalQuantity props (selectedProductId st)) →
  finite (Form.productTotalValue props (selectedProductId st)) →
  Forall (λ f, finite (nor0 (f_quantity f))) (fragments st) →
  ∃ s, Form.getTotalFragmentQuantity st = Fin s
       ∧ Form.getTotalFragmentValue props st
         = Form.calculateFragmentValue props st (Fin s).
Proof.
  intros [t HT] [v HV].
  rewrite getTotalFragmentQuantity_foldr, getTotalFragmentValue_foldr.
  induction 1 as [|f l [x Hx] _ (s & Hs & IH)].
  - exists 0%Qc. split; [done|]. simpl.
    rewrite (calculateFragmentValue_rational props st 0%Qc t v HT HV).
    case_decide; [done|]. apply (f_equal Fin). by field.
  - exists (x + s)%Qc. rewrite !fmap_cons. cbn [foldr].
    rewrite Hs, IH, Hx. split; [done|].
    rewrite !(calculateFragmentValue_rational props st _ t v HT HV).
    case_decide; simpl.
    + apply (f_equal Fin). ring.
    + apply (f_equal Fin). by field.
Qed.

Lemma complete_finite (l : list Fragment) :
  Forall complete l → finite (totalQuantity l) →
  Forall (λ f, finite (nor0 (f_quantity f))) l.
Proof.
  unfold totalQuantity.
  induction 1 as [|f l [(q & Hq & Hpos) _] _ IH]; [constructor|].
  rewrite fmap_cons. cbn [foldr]. rewrite Hq. cbn [default].
  intros [s Hs]. constructor.
  - rewrite Hq, positive_nor0 by done.
    destruct q as [x| | |]; [by exists x|..];
      by destruct (foldr nadd Zero _).
  - apply IH. destruct (foldr nadd Zero _) as [y| | |]; [by exists y|..];
      by destruct q.
Qed.

Lemma Qcdiv_le_1 (s t : Qc) : (0 < t)%Qc → (s ≤ t)%Qc → (s / t ≤ 1)%Qc.
Proof.
  intros Ht Hst. rewrite <- (Qcmult_inv_r t) by (by apply Qclt_not_eq in Ht).
  apply Qcmult_le_mono_nonneg_r; [|done].
  by apply Qclt_le_weak, Qcinv_pos.
Qed.

(** The claim that the total value never exceeds the product's under the
    partial-allowed policy fails for a product whose total price is
    negative: 3 of 10 units at a total price of -100 are worth -30, which
    is above -100. *)
Lemma negative_price_exceeds :
  Partial.isValid props9 (Partial.mount props9 env0) = true
  ∧ Form.productTotalValue props9 "p9" = of_Z (-100)
  ∧ Form.getTotalFragmentValue props9 (Partial.mount props9 env0) = of_Z (-30)
  ∧ ¬ num_le (Form.getTotalFragmentValue props9 (Partial.mount props9 env0))
             (Form.productTotalValue props9 "p9").
Proof.
  assert (Form.getTotalFragmentValue props9 (Partial.mount props9 env0)
          = of_Z (-30)) as Hval by (vm_compute; num_eq).
  assert (Form.productTotalValue props9 "p9" = of_Z (-100)) as Hprice
    by (vm_compute; num_eq).
  split; [vm_compute; reflexivity|]. split; [done|]. split; [done|].
  rewrite Hval, Hprice. unfold of_Z. rewrite num_le_fin.
  apply Qclt_not_le. reflexivity.
Qed.

(** C10 (amended). Over rationals the sum of the drafts' values is the
    value of the sum of their quantities. Hence, wherever the first form
    variant can get to, a valid draft list has total value equal to the
    product's total value; and under the second variant a valid draft list
    has total value at most the product's total value, provided that value
    is not negative. *)
Theorem total_value_additive :
  (∀ (props : Props) (st : State),
     finite (Form.productTotalQuantity props (selectedProductId st)) →
     finite (Form.productTotalValue props (selectedProductId st)) →
     Forall (λ f, finite (nor0 (f_quantity f))) (fragments st) →
     Form.getTotalFragmentValue props st
     = Form.calculateFragmentValue props st (Form.getTotalFragmentQuantity st))
  ∧
  (∀ (props : Props) (env : Env) (evs : list (Env * Event)),
     let st := (Strict.run props evs (Strict.mount props env)).1 in
     finite (Form.productTotalQuantity props (selectedProductId st)) →
     finite (Form.productTotalValue props (selectedProductId st)) →
     Strict.isValid props st = true →
     Form.getTotalFragmentValue props st
     = Form.productTotalValue props (selectedProductId st))
  ∧
  (∀ (props : Props) (st : State),
     finite (Form.productTotalQuantity props (selectedProductId st)) →
     finite (Form.productTotalValue props (selectedProductId st)) →
     num_le Zero (Form.productTotalValue props (selectedProductId st)) →
     Partial.isValid props st = true →
     num_le (Form.getTotalFragmentValue props st)
            (Form.productTotalValue props (selectedProductId st))).
Proof.
  split_and!.
  - intros props st HT HV Hfin.
    destruct (values_additive props st HT HV Hfin) as (s & -> & ->). done.
  - intros props env evs st HT HV Hvalid.
    assert (fragments st ≠ []) as Hne
      by apply strict_run_nonempty, strict_initializeFragments_nonempty.
    apply strict_isValid_unfold in Hvalid as [Htot Hall].
    rewrite total_of_complete in Htot by done.
    destruct (totalQuantity_complete _ Hall) as [[? _]|[_ Hpos]]; [done|].
    destruct (values_additive props st HT HV) as (s & Hs & ->).
    { apply complete_finite; [done|]. by rewrite Htot. }
    rewrite total_of_complete, Htot in Hs by done.
    rewrite Htot in Hpos. destruct HT as [t HT], HV as [v HV].
    rewrite HT in Hs, Hpos. injection Hs as <-.
    rewrite (calculateFragmentValue_rational props st t t v HT HV), HV.
    inversion Hpos as [? ? Hlt| | |]; subst.
    apply Qclt_not_eq in Hlt. rewrite decide_False by done.
    apply (f_equal Fin). by field.
  - intros props st [t HT] [v HV] HV0 Hvalid.
    apply partial_isValid_unfold in Hvalid as (Hpos & Hle & Hall).
    rewrite total_of_complete in Hpos, Hle by done.
    rewrite HT in Hle. rewrite HV in HV0.
    destruct (totalQuantity (fragments st)) as [s| | |] eqn:Hs;
      try (by inversion Hpos);
      try (by destruct Hle as [Hle|[? _]]; [inversion Hle|]).
    destruct (values_additive props st) as (s' & Hs' & ->).
    { by exists t. } { by exists v. }
    { apply complete_finite; [done|]. rewrite Hs. by exists s. }
    rewrite total_of_complete, Hs in Hs' by done. injection Hs' as <-.
    rewrite (calculateFragmentValue_rational props st s t v HT HV), HV.
    apply num_le_fin in Hle, HV0. inversion Hpos as [? ? Hlt| | |]; subst.
    assert (0 < t)%Qc as Ht by (by eapply Qclt_le_trans).
    rewrite decide_False by (by apply Qclt_not_eq in Ht).
    apply num_le_fin.
    rewrite <- (Qcmult_1_l v) at 2.
    apply Qcmult_le_mono_nonneg_r; [done|]. by apply Qcdiv_le_1.
Qed.

Lemma total_value_additive_witness :
  Form.getTotalFragmentValue props2 strictValid
    = Form.calculateFragmentValue props2 strictValid
        (Form.getTotalFragmentQuantity strictValid)
  ∧ Form.getTotalFragmentValue props2
      (Strict.run props2 split4060 (Strict.mount props2 env0)).1
    = Form.productTotalValue props2
        (selectedProductId
           (Strict.run props2 split4060 (Strict.mount props2 env0)).1)
  ∧ num_le (Form.getTotalFragmentValue props2 partialValid)
           (Form.productTotalValue props2 (selectedProductId partialValid)).
Proof.
  split_and!.
  - apply (proj1 total_value_additive props2 strictValid).
    + exists (Q2Qc (inject_Z 100)). vm_compute. num_eq.
    + exists (Q2Qc (inject_Z 500)). vm_compute. num_eq.
    + repeat constructor.
      * exists (Q2Qc (inject_Z 40)). vm_compute. num_eq.
      * exists (Q2Qc (inject_Z 60)). vm_compute. num_eq.
  - apply (proj1 (proj2 total_value_additive) props2 env0 split4060).
    + exists (Q2Qc (inject_Z 100)). vm_compute. num_eq.
    + exists (Q2Qc (inject_Z 500)). vm_compute. num_eq.
    + vm_compute. reflexivity.
  - apply (proj2 (proj2 total_value_additive) props2 partialValid).
    + exists (Q2Qc (inject_Z 100)). vm_compute. num_eq.
    + exists (Q2Qc (inject_Z 500)). vm_compute. num_eq.
    + left. replace (Form.productTotalValue props2 (selectedProductId partialValid))
        with (of_Z 500) by (vm_compute; num_eq).
      constructor. reflexivity.
    + vm_compute. reflexivity.
Defined.

(** ** The later split dialog *)

Lemma num_le_lt_trans (a b c : num) : num_le a b → num_lt b c → num_lt a c.
Proof.
  intros [H|[-> _]] Hbc; [by eapply num_lt_trans|done].
Qed.

Lemma num_le_refl (a : num) : a ≠ NaN → num_le a a.
Proof. by right. Qed.

Lemma nadd_nonneg (a b : num) :
  num_le Zero a → num_le Zero b → num_le Zero (nadd a b).
Proof.
  intros Ha Hb.
  destruct a as [x| | |], b as [y| | |]; simpl;
    try (by destruct Ha as [Ha|[? ?]]; [inversion Ha|]);
    try (by destruct Hb as [Hb|[? ?]]; [inversion Hb|]);
    try solve [left; constructor].
  apply num_le_fin in Ha, Hb. apply num_le_fin.
  by apply Qcplus_nonneg_nonneg.
Qed.

Lemma nor0_nonneg (a : num) : num_le Zero a → num_le Zero (nor0 (Some a)).
Proof.
  intros Ha. simpl. destruct (ntruthy a); [done|]. by apply num_le_refl.
Qed.

Lemma fold_left_nonneg {A : Type} (g : A → num) (l : list A) (a : num) :
  num_le Zero a → (∀ x, x ∈ l → num_le Zero (g x)) →
  num_le Zero (fold_left (λ sum x, nadd sum (g x)) l a).
Proof.
  revert a. induction l as [|x l IH]; intros a Ha Hg; simpl; [done|].
  apply IH.
  - apply nadd_nonneg; [done|]. apply Hg. left.
  - intros y Hy. apply Hg. by right.
Qed.

Lemma nsub_Zero_nonneg (a : num) : num_le Zero a → num_le (nsub Zero a) Zero.
Proof.
  intros Ha. unfold nsub. rewrite nadd_Zero_l.
  destruct a as [x| | |]; simpl;
    try (by destruct Ha as [Ha|[? ?]]; [inversion Ha|]);
    try solve [left; constructor].
  apply num_le_fin in Ha. apply num_le_fin.
  apply Qcopp_le_compat in Ha. by replace (- 0)%Qc with 0%Qc in Ha by ring.
Qed.

(** With nothing negative already fragmented, a product of quantity zero
    has nothing available. *)
Lemma getAvailableQuantity_Zero (order : Order) (product : OrderProduct) :
  foundByItsId order product → fragmentsNotNegative order →
  p_quantity product = Zero →
  num_le (SplitDialog2.getAvailableQuantity order (p_id product)) Zero.
Proof.
  intros Hfound Hfs HT. unfold SplitDialog2.getAvailableQuantity.
  unfold foundByItsId in Hfound. rewrite Hfound, HT.
  apply nsub_Zero_nonneg.
  destruct (o_fragments order) as [fs|] eqn:Hofs; [|by apply num_le_refl].
  cbn [fmap option_fmap option_map]. apply nor0_nonneg.
  apply (fold_left_nonneg
           (λ f, if bool_decide (s_product_id f
                                 = sor (p_product_id product) (p_id product))
                    || bool_decide (s_product_id f = p_id product)
                    || bool_decide (s_product_id f = p_id product)
                 then s_quantity f else Zero)).
  - by apply num_le_refl.
  - intros f Hf. destruct (_ || _); [by eapply Hfs|by apply num_le_refl].
Qed.

Lemma handleSplit2_fragments (order : Order) (env : Env) (ok : bool)
    (st : SplitDialog2.DialogState) (frs : list SplitFragment) (i : nat)
    (fr : SplitFragment) :
  frs ∈ splitLists2 (SplitDialog2.handleSplit order env ok st).2 →
  frs !! i = Some fr →
  ∃ ps product,
    o_products order = Some ps ∧ product ∈ ps ∧
    fr = SplitDialog2.makeFragment order env st i product ∧
    num_lt Zero (SplitDialog2.quantityOf st (p_id product)) ∧
    ¬ num_lt (SplitDialog2.getAvailableQuantity order (p_id product))
             (SplitDialog2.quantityOf st (p_id product)).
Proof.
  unfold SplitDialog2.handleSplit. intros Hin Hfr.
  destruct (negb _); [by apply elem_of_nil in Hin|].
  destruct (o_products order) as [ps|] eqn:Hps.
  - destruct (existsb _ ps) eqn:Hex; [by apply elem_of_nil in Hin|].
    assert (frs = imap (SplitDialog2.makeFragment order env st)
              (List.filter (λ product,
                 ngt (SplitDialog2.quantityOf st (p_id product)) Zero) ps))
      as -> by (by destruct ok; apply list_elem_of_singleton in Hin).
    rewrite list_lookup_imap in Hfr.
    destruct (List.filter _ ps !! i) as [product|] eqn:Hp; [|done].
    simpl in Hfr. simplify_eq.
    apply list_elem_of_lookup_2, list_elem_of_In, filter_In in Hp.
    destruct Hp as [Hp Hq]. exists ps, product.
    split_and!; [done|by apply list_elem_of_In|done|by apply ngt_spec|].
    rewrite <- ngt_spec.
    by rewrite (existsb_false _ _ _ Hex Hp).
  - assert (frs = []) as ->
      by (by destruct ok; apply list_elem_of_singleton in Hin).
    done.
Qed.

(** X16. On well-formed data every fragment the later dialog hands over
    carries the entered quantity of a product whose quantity is not zero:
    its value [(V / T) * q] is never the result of a division by zero. *)
Lemma handleSplit2_value (order : Order) (env : Env) (ok : bool)
    (st : SplitDialog2.DialogState) (frs : list SplitFragment) (i : nat)
    (fr : SplitFragment) :
  fragmentsNotNegative order →
  (∀ ps product, o_products order = Some ps → product ∈ ps →
                 foundByItsId order product) →
  frs ∈ splitLists2 (SplitDialog2.handleSplit order env ok st).2 →
  frs !! i = Some fr →
  ∃ ps product,
    o_products order = Some ps ∧ product ∈ ps ∧
    s_quantity fr = SplitDialog2.quantityOf st (p_id product) ∧
    p_quantity product ≠ Zero ∧
    s_value fr
    = nmul (ndiv (p_total_price product) (p_quantity product)) (s_quantity fr).
Proof.
  intros Hfs Hfound Hin Hfr.
  destruct (handleSplit2_fragments _ _ _ _ _ _ _ Hin Hfr)
    as (ps & product & Hps & Hp & -> & Hpos & Hle).
  assert (p_quantity product ≠ Zero) as HT.
  { intros HT. apply Hle. eapply num_le_lt_trans; [|done].
    apply getAvailableQuantity_Zero; eauto. }
  exists ps, product. by split_and!.
Qed.

(** The later dialog refuses in the same way: one alert, no callback, the
    quantities untouched. *)
Lemma handleSplit2_invalid (order : Order) (env : Env) (ok : bool)
    (st : SplitDialog2.DialogState) :
  (∀ id q, SplitDialog2.quantities st !! id = Some q → ¬ num_lt Zero q)
  ∨ (∃ ps product,
       o_products order = Some ps ∧ product ∈ ps ∧
       num_lt (SplitDialog2.getAvailableQuantity order (p_id product))
              (SplitDialog2.quantityOf st (p_id product))) →
  ∃ a, SplitDialog2.handleSplit order env ok st
       = (SplitDialog2.mkDialogState (SplitDialog2.quantities st) false,
          [SplitDialog2.ShowAlert a])
       ∧ a ≠ SplitDialog2.TryAgain.
Proof.
  intros Hinv. unfold SplitDialog2.handleSplit.
  case_bool_decide as Hex; simpl.
  - destruct Hinv as [Hno|(ps & product & Hps & Hin & Hlt)].
    { destruct Hex as (id & q & Hq & Hpos). apply ngt_spec in Hpos.
      by destruct (Hno id q). }
    rewrite Hps.
    assert (existsb (λ product,
                       ngt (SplitDialog2.quantityOf st (p_id product))
                           (SplitDialog2.getAvailableQuantity order (p_id product)))
                    ps = true) as ->.
    { apply existsb_exists. exists product.
      split; [by apply list_elem_of_In|by apply ngt_spec]. }
    by exists SplitDialog2.ExceedsAvailable.
  - by exists SplitDialog2.SpecifyQuantity.
Qed.

(** ** The second example of the specification

    A single draft of 15 units for a product of 10 units is invalid under
    both policies, and the second variant says that the total is too
    large. *)
Example exceeding_total_invalid :
  let evs := [(env0, SelectProduct "p2");
              (env0, Update 0 (FQuantity (of_Z 15)))] in
  Strict.isValid props1 (Strict.run props1 evs (Strict.mount props1 env0)).1
    = false
  ∧ Partial.isValid props1
      (Partial.run props1 evs (Partial.mount props1 env0)).1 = false
  ∧ ∃ total productTotal,
      (Partial.run props1 (evs ++ [(env0, Save)]) (Partial.mount props1 env0)).2
      = [Toast (CannotExceed total productTotal)].
Proof.
  split; [vm_compute; reflexivity|]. split; [vm_compute; reflexivity|].
  eexists _, _. vm_compute. reflexivity.
Qed.

(** ** Further properties of the forms *)

(** X1. In both form versions, whatever the user does after the first
    render (adding, removing, editing, switching product, saving), the
    draft list holds at least one draft. *)
Theorem drafts_never_empty (props : Props) (env : Env)
    (evs : list (Env * Event)) :
  fragments (Strict.run props evs (Strict.mount props env)).1 ≠ []
  ∧ fragments (Partial.run props evs (Partial.mount props env)).1 ≠ [].
Proof.
  split.
  - apply strict_run_nonempty, strict_initializeFragments_nonempty.
  - apply partial_run_nonempty, partial_initializeFragments_nonempty.
Qed.

Lemma imap_alter {A : Type} (f : A → A) (index : nat) (l : list A) :
  imap (λ i x, if bool_decide (i = index) then f x else x) l
  = alter f index l.
Proof.
  apply list_eq. intros j. rewrite list_lookup_imap.
  destruct (decide (index = j)) as [->|Hne].
  - rewrite list_lookup_alter_eq. destruct (l !! j); [|done].
    simpl. by rewrite bool_decide_eq_true_2.
  - rewrite list_lookup_alter_ne by done. destruct (l !! j); [|done].
    simpl. by rewrite bool_decide_eq_false_2.
Qed.

Lemma updateFragment_fragments (index : nat) (fv : FieldValue) (st : State) :
  fragments (Form.updateFragment index fv st)
  = alter (setField fv) index (fragments st).
Proof. apply imap_alter. Qed.

Lemma setField_dated (fv : FieldValue) (f : Fragment) :
  dated f → dated (setField fv f).
Proof. destruct fv; [done|]. by eexists. Qed.

Lemma Forall_alter_same {A : Type} (P : A → Prop) (f : A → A) (i : nat)
    (l : list A) :
  (∀ x, P x → P (f x)) → Forall P l → Forall P (alter f i l).
Proof.
  intros Hf Hl. apply Forall_lookup. intros j y Hy.
  destruct (decide (i = j)) as [->|Hij].
  - rewrite list_lookup_alter_eq in Hy.
    destruct (l !! j) as [x|] eqn:Hx; [|done]. simpl in Hy. simplify_eq.
    apply Hf. by eapply Forall_lookup_1.
  - rewrite list_lookup_alter_ne in Hy by done. by eapply Forall_lookup_1.
Qed.

Lemma strict_initializeFragments_dated (props : Props) (sel : string)
    (env : Env) :
  Forall dated (Strict.initializeFragments props sel env).
Proof.
  unfold Strict.initializeFragments. case_bool_decide.
  - apply Forall_fmap, Forall_true. intros f. by eexists.
  - repeat constructor. by eexists.
Qed.

Lemma partial_initializeFragments_dated (props : Props) (sel : string)
    (env : Env) :
  Forall dated (Partial.initializeFragments props sel env).
Proof.
  unfold Partial.initializeFragments. case_bool_decide.
  - apply Forall_lookup. intros i f Hf. rewrite list_lookup_imap in Hf.
    destruct (filter _ _ !! i); [|done]. simpl in Hf. simplify_eq.
    by eexists.
  - repeat constructor. by eexists.
Qed.

Lemma removeFragment_Forall (P : Fragment → Prop) (index : nat) (st : State) :
  Forall P (fragments st) → Forall P (fragments (Form.removeFragment index st)).
Proof.
  intros H. rewrite removeFragment_fragments. case_bool_decide; [|done].
  by apply Forall_delete.
Qed.

Lemma strict_step_dated (props : Props) (env : Env) (ev : Event) (st : State) :
  Forall dated (fragments st) →
  Forall dated (fragments (Strict.step props env ev st).1).
Proof.
  intros H. destruct ev; cbn [Strict.step fst].
  - simpl. apply Forall_app. split; [done|]. repeat constructor. by eexists.
  - by apply removeFragment_Forall.
  - rewrite updateFragment_fragments.
    apply Forall_alter_same; [apply setField_dated|done].
  - unfold Form.updateFragmentDate. cbn [fragments].
    rewrite updateFragment_fragments.
    apply Forall_alter_same; [apply setField_dated|done].
  - unfold Strict.selectProduct. case_bool_decide; [done|].
    apply strict_initializeFragments_dated.
  - by rewrite strict_handleSave_state.
Qed.

Lemma partial_step_dated (props : Props) (env : Env) (ev : Event) (st : State) :
  Forall dated (fragments st) →
  Forall dated (fragments (Partial.step props env ev st).1).
Proof.
  intros H. destruct ev; cbn [Partial.step fst].
  - simpl. apply Forall_app. split; [done|]. repeat constructor. by eexists.
  - by apply removeFragment_Forall.
  - rewrite updateFragment_fragments.
    apply Forall_alter_same; [apply setField_dated|done].
  - unfold Form.updateFragmentDate. cbn [fragments].
    rewrite updateFragment_fragments.
    apply Forall_alter_same; [apply setField_dated|done].
  - unfold Partial.selectProduct. case_bool_decide; [done|].
    apply partial_initializeFragments_dated.
  - by rewrite partial_handleSave_state.
Qed.

Lemma strict_run_dated (props : Props) (evs : list (Env * Event)) (st : State) :
  Forall dated (fragments st) →
  Forall dated (fragments (Strict.run props evs st).1).
Proof.
  revert st. induction evs as [|[env ev] evs IH]; intros st H; [done|].
  rewrite strict_run_cons. simpl. by apply IH, strict_step_dated.
Qed.

Lemma partial_run_dated (props : Props) (evs : list (Env * Event)) (st : State) :
  Forall dated (fragments st) →
  Forall dated (fragments (Partial.run props evs st).1).
Proof.
  revert st. induction evs as [|[env ev] evs IH]; intros st H; [done|].
  rewrite partial_run_cons. simpl. by apply IH, partial_step_dated.
Qed.

(** X2. In both form versions every draft has a scheduled date at all
    times: the initializer fills in missing dates of persisted fragments,
    added drafts are dated, and no edit removes a date. *)
Theorem drafts_always_dated (props : Props) (env : Env)
    (evs : list (Env * Event)) :
  Forall (λ f, is_Some (f_scheduledDate f))
         (fragments (Strict.run props evs (Strict.mount props env)).1)
  ∧ Forall (λ f, is_Some (f_scheduledDate f))
           (fragments (Partial.run props evs (Partial.mount props env)).1).
Proof.
  split.
  - apply strict_run_dated, strict_initializeFragments_dated.
  - apply partial_run_dated, partial_initializeFragments_dated.
Qed.

(** X3. A selected product whose total quantity is zero (or no selected
    product at all) can never be fragmented: no non-empty draft list is
    valid for it, under either policy. *)
Theorem zero_quantity_never_valid (props : Props) (st : State) :
  Form.productTotalQuantity props (selectedProductId st) = Zero →
  fragments st ≠ [] →
  Strict.isValid props st = false ∧ Partial.isValid props st = false.
Proof.
  intros HT Hne. split; apply not_true_iff_false.
  - intros [Heq Hall]%strict_isValid_unfold.
    destruct (totalQuantity_complete _ Hall) as [[? _]|[_ Hpos]]; [done|].
    rewrite <- total_of_complete, Heq, HT in Hpos by done.
    by eapply num_lt_irrefl.
  - intros (Hpos & Hle & _)%partial_isValid_unfold.
    rewrite HT in Hle. by eapply num_le_not_lt.
Qed.

Lemma zero_quantity_never_valid_witness :
  Strict.isValid propsNone (Strict.mount propsNone env0) = false
  ∧ Partial.isValid propsNone (Partial.mount propsNone env0) = false.
Proof.
  split.
  - apply (zero_quantity_never_valid propsNone (Strict.mount propsNone env0));
      [reflexivity|discriminate].
  - apply (zero_quantity_never_valid propsNone (Partial.mount propsNone env0));
      [reflexivity|discriminate].
Defined.

Lemma nor0_One : nor0 (Some One) = One.
Proof. reflexivity. Qed.

(** X4. In both form versions [addFragment] lengthens the draft list by
    one and raises the fragmented total by exactly one unit. *)
Theorem addFragment_adds_one_unit (env : Env) (st : State) :
  (length (fragments (Strict.addFragment env st))
     = S (length (fragments st))
   ∧ Form.getTotalFragmentQuantity (Strict.addFragment env st)
     = nadd (Form.getTotalFragmentQuantity st) One)
  ∧
  (length (fragments (Partial.addFragment env st))
     = S (length (fragments st))
   ∧ Form.getTotalFragmentQuantity (Partial.addFragment env st)
     = nadd (Form.getTotalFragmentQuantity st) One).
Proof.
  unfold Form.getTotalFragmentQuantity, Strict.addFragment, Partial.addFragment.
  cbn [fragments]. rewrite !length_app, !fold_left_app. cbn [fold_left length].
  cbn [f_quantity]. rewrite nor0_One. split; split; try done; lia.
Qed.

(** X5. [updateFragment] rewrites the draft at [index] and no other; with
    an index at or past the end of the list it changes nothing. *)
Theorem updateFragment_only_index (index k : nat) (fv : FieldValue)
    (st : State) :
  fragments (Form.updateFragment index fv st)
    = alter (setField fv) index (fragments st)
  ∧ selectedProductId (Form.updateFragment index fv st) = selectedProductId st
  ∧ Form.updateFragment (length (fragments st) + k) fv st = st.
Proof.
  split; [apply updateFragment_fragments|]. split; [done|].
  destruct st as [sel l cal]. unfold Form.updateFragment. cbn [fragments].
  f_equal. rewrite imap_alter. apply list_eq. intros j.
  destruct (decide (length l + k = j)%nat) as [<-|Hne].
  - rewrite list_lookup_alter_eq, lookup_ge_None_2; [done|lia].
  - by rewrite list_lookup_alter_ne.
Qed.

Lemma delete_past_end {A : Type} (l : list A) (k : nat) :
  delete (length l + k)%nat l = l.
Proof. induction l as [|x l IH]; [done|]. simpl. by rewrite IH. Qed.

(** X6. With two drafts or more [removeFragment] takes out the draft at
    [index] and keeps the others in their order; with a single draft, or an
    index at or past the end of the list, it changes nothing. *)
Theorem removeFragment_deletes_index (index k : nat) (st : State) :
  fragments (Form.removeFragment index st)
    = (if bool_decide (1 < length (fragments st))%nat
       then delete index (fragments st) else fragments st)
  ∧ Form.removeFragment (length (fragments st) + k) st = st.
Proof.
  split; [apply removeFragment_fragments|].
  destruct st as [sel l cal]. unfold Form.removeFragment. cbn [fragments].
  case_bool_decide; [|done]. f_equal.
  rewrite ifilter_delete. apply delete_past_end.
Qed.

(** X7. Every non-empty draft list that the exact-match policy accepts is
    accepted by the partial-allowed policy as well. *)
Theorem strict_valid_is_partial_valid (props : Props) (st : State) :
  fragments st ≠ [] →
  Strict.isValid props st = true → Partial.isValid props st = true.
Proof.
  intros Hne [Heq Hall]%strict_isValid_unfold. apply partial_isValid_unfold.
  destruct (totalQuantity_complete _ Hall) as [[? _]|[_ Hpos]]; [done|].
  rewrite <- total_of_complete in Hpos by done.
  split_and!; [done| |done]. right. split; [done|].
  by eapply num_lt_not_nan_r.
Qed.

Lemma strict_valid_is_partial_valid_witness :
  Partial.isValid props2 strictValid = true.
Proof.
  apply (strict_valid_is_partial_valid props2 strictValid);
    [discriminate|vm_compute; reflexivity].
Defined.

(** The converse fails: 40 of 100 units alone are a valid partial
    fragmentation and an invalid exact one. *)
Example partial_valid_not_strict_valid :
  let st := Form.updateFragment 0 (FQuantity (of_Z 40))
              (Strict.mount props2 env0) in
  Partial.isValid props2 st = true ∧ Strict.isValid props2 st = false.
Proof. split; vm_compute; reflexivity. Qed.

(** X8. A draft whose quantity is not above zero (a cleared input gives
    0) makes the draft list invalid under both policies, whatever the
    other drafts hold. *)
Theorem nonpositive_quantity_invalid (props : Props) (index : nat) (q : num)
    (st : State) :
  ¬ positive q →
  (index < length (fragments st))%nat →
  Strict.isValid props (Form.updateFragment index (FQuantity q) st) = false
  ∧ Partial.isValid props (Form.updateFragment index (FQuantity q) st) = false.
Proof.
  intros Hq Hi.
  assert (¬ Forall complete
              (fragments (Form.updateFragment index (FQuantity q) st))) as Hno.
  { rewrite updateFragment_fragments. intros Hall.
    destruct (lookup_lt_is_Some_2 _ _ Hi) as [d Hd].
    assert (alter (setField (FQuantity q)) index (fragments st) !! index
            = Some (setField (FQuantity q) d)) as Hlook
      by (by rewrite list_lookup_alter_eq, Hd).
    destruct (Forall_lookup_1 _ _ _ _ Hall Hlook) as [(q' & [= <-] & Hpos) _].
    done. }
  split; apply not_true_iff_false.
  - by intros [_ Hall]%strict_isValid_unfold.
  - by intros (_ & _ & Hall)%partial_isValid_unfold.
Qed.

Lemma nonpositive_quantity_invalid_witness :
  Strict.isValid props2 (Form.updateFragment 1 (FQuantity Zero) strictValid)
    = false
  ∧ Partial.isValid props2 (Form.updateFragment 1 (FQuantity Zero) partialValid)
    = false.
Proof.
  split.
  - apply (nonpositive_quantity_invalid props2 1 Zero strictValid).
    + intros H. inversion H as [x y Hlt| | |]. discriminate Hlt.
    + vm_compute. lia.
  - apply (nonpositive_quantity_invalid props2 1 Zero partialValid).
    + intros H. inversion H as [x y Hlt| | |]. discriminate Hlt.
    + vm_compute. lia.
Defined.

Lemma fmap_alter_same {A B : Type} (g : A → B) (h : A → A) (i : nat)
    (l : list A) :
  (∀ x, g (h x) = g x) → g <$> alter h i l = g <$> l.
Proof.
  intros Hg. apply list_eq. intros j. rewrite !list_lookup_fmap.
  destruct (decide (i = j)) as [->|Hne].
  - rewrite list_lookup_alter_eq. destruct (l !! j); [|done].
    simpl. by rewrite Hg.
  - by rewrite list_lookup_alter_ne.
Qed.

Lemma forallb_alter_same {A : Type} (g : A → bool) (h : A → A) (i : nat)
    (l : list A) :
  Forall (λ x, g (h x) = g x) l → forallb g (alter h i l) = forallb g l.
Proof.
  intros Hl. revert i. induction Hl as [|x l Hx _ IH]; intros i; [done|].
  destruct i as [|i].
  - change (alter h 0%nat (x :: l)) with (h x :: l). cbn [forallb].
    by rewrite Hx.
  - change (alter h (S i) (x :: l)) with (x :: alter h i l). cbn [forallb].
    by f_equal.
Qed.

Lemma updateFragmentDate_total (index : nat) (date : Date) (st : State) :
  Form.getTotalFragmentQuantity (Form.updateFragmentDate index date st)
  = Form.getTotalFragmentQuantity st.
Proof.
  rewrite !getTotalFragmentQuantity_foldr. unfold Form.updateFragmentDate.
  cbn [fragments]. rewrite updateFragment_fragments.
  by rewrite (fmap_alter_same (λ f, nor0 (f_quantity f))).
Qed.

Lemma updateFragmentDate_filled (index : nat) (date : Date) (st : State) :
  Forall dated (fragments st) →
  forallb Form.draftFilled (fragments (Form.updateFragmentDate index date st))
  = forallb Form.draftFilled (fragments st).
Proof.
  intros Hd. unfold Form.updateFragmentDate. cbn [fragments].
  rewrite updateFragment_fragments. apply forallb_alter_same.
  eapply Forall_impl; [done|]. intros f [d Hf]. unfold Form.draftFilled.
  simpl. rewrite Hf. destruct (f_quantity f); [|done].
  by rewrite !bool_decide_eq_true_2 by (by eexists).
Qed.

(** X9. Picking a date for a draft closes the calendar, leaves the
    fragmented total as it is and, when every draft already has a date (as
    is always the case in the form), leaves validity as it is under both
    policies. *)
Theorem pickDate_keeps_validity (props : Props) (index : nat) (date : Date)
    (st : State) :
  Forall dated (fragments st) →
  showCalendar (Form.updateFragmentDate index date st) = None
  ∧ Form.getTotalFragmentQuantity (Form.updateFragmentDate index date st)
    = Form.getTotalFragmentQuantity st
  ∧ Strict.isValid props (Form.updateFragmentDate index date st)
    = Strict.isValid props st
  ∧ Partial.isValid props (Form.updateFragmentDate index date st)
    = Partial.isValid props st.
Proof.
  intros Hd. split; [done|]. split; [apply updateFragmentDate_total|].
  unfold Strict.isValid, Partial.isValid.
  rewrite updateFragmentDate_total, updateFragmentDate_filled by done.
  done.
Qed.

Lemma pickDate_keeps_validity_witness :
  Strict.isValid props2
    (Form.updateFragmentDate 1 (mkDate 20005 0) strictValid) = true
  ∧ Partial.isValid props2
      (Form.updateFragmentDate 1 (mkDate 20005 0) partialValid) = true.
Proof.
  assert (Forall dated (fragments strictValid)) as Hs
    by (repeat constructor; by eexists).
  assert (Forall dated (fragments partialValid)) as Hp
    by (repeat constructor; by eexists).
  split.
  - rewrite (proj1 (proj2 (proj2
      (pickDate_keeps_validity props2 1 (mkDate 20005 0) strictValid Hs)))).
    vm_compute. reflexivity.
  - rewrite (proj2 (proj2 (proj2
      (pickDate_keeps_validity props2 1 (mkDate 20005 0) partialValid Hp)))).
    vm_compute. reflexivity.
Defined.

(** ** The dates suggested for a number of fragments *)

Lemma generateDates_loop_spec (startDate : Date) (i n : nat)
    (dates : list Date) :
  Partial.generateDates_loop startDate i n dates
  = dates ++ ((λ j, addDays startDate (Z.of_nat j)) <$> seq i n).
Proof.
  revert i dates. induction n as [|n IH]; intros i dates; simpl.
  - by rewrite app_nil_r.
  - by rewrite IH, <- app_assoc.
Qed.

(** X10. [generateDefaultFragmentDates(count)] returns [count] dates: the
    start of today and the following days, one per day, all at
    midnight. *)
Theorem generateDefaultFragmentDates_consecutive (count : nat) (env : Env) :
  length (Partial.generateDefaultFragmentDates count env) = count
  ∧ ∀ i, (i < count)%nat →
      Partial.generateDefaultFragmentDates count env !! i
      = Some (mkDate (day (today env) + Z.of_nat i) 0).
Proof.
  unfold Partial.generateDefaultFragmentDates.
  rewrite generateDates_loop_spec. simpl. split.
  - by rewrite length_fmap, length_seq.
  - intros i Hi. rewrite list_lookup_fmap, lookup_seq_lt by done. done.
Qed.

Lemma generateDefaultFragmentDates_consecutive_witness :
  Partial.generateDefaultFragmentDates 3 env0 !! 2%nat
  = Some (mkDate (day (today env0) + Z.of_nat 2) 0).
Proof.
  apply (proj2 (generateDefaultFragmentDates_consecutive 3 env0) 2%nat). lia.
Defined.

(** ** Further properties of the split dialog *)

Lemma nmax_Zero_nonneg (a : num) : a ≠ NaN → num_le Zero (nmax Zero a).
Proof.
  intros Ha. unfold nmax. destruct a as [x| | |]; try done.
  - destruct (nlt Zero (Fin x)) eqn:Hlt.
    + left. by apply nlt_spec.
    + by apply num_le_refl.
  - left. constructor.
  - by apply num_le_refl.
Qed.

(** X11. In [OrderSplitDialog.tsx], [handleQuantityChange] stores
    [max(0, parseInt(value) || 0)] for the product and touches no other
    entry; so after any sequence of edits from the empty form every
    entered quantity is zero or above, never negative and never [NaN]. *)
Theorem handleQuantityChange_not_negative (productId : string) (parsed : num)
    (st : SplitDialog.DialogState) (edits : list (string * num)) :
  SplitDialog.quantities (SplitDialog.handleQuantityChange productId parsed st)
    = <[productId := nmax Zero (nor0 (Some parsed))]> (SplitDialog.quantities st)
  ∧ num_le Zero
      (SplitDialog.quantityOf
         (SplitDialog.handleQuantityChange productId parsed st) productId)
  ∧ quantitiesNotNegative
      (foldl (λ s e, SplitDialog.handleQuantityChange e.1 e.2 s)
             (SplitDialog.mkDialogState ∅ false) edits).
Proof.
  split; [done|]. split.
  - unfold SplitDialog.quantityOf, SplitDialog.handleQuantityChange.
    cbn [SplitDialog.quantities]. rewrite lookup_insert_eq.
    apply nor0_nonneg, nmax_Zero_nonneg, nor0_not_nan.
  - assert (∀ st0, quantitiesNotNegative st0 →
              quantitiesNotNegative
                (foldl (λ s e, SplitDialog.handleQuantityChange e.1 e.2 s)
                       st0 edits)) as Hgen.
    { induction edits as [|[id v] edits IH]; intros st0 H0; [done|].
      simpl. apply IH. unfold quantitiesNotNegative.
      cbn [SplitDialog.handleQuantityChange SplitDialog.quantities].
      apply map_Forall_insert_2; [|done].
      apply nmax_Zero_nonneg, nor0_not_nan. }
    apply Hgen. unfold quantitiesNotNegative. simpl. apply map_Forall_empty.
Qed.

(** X12. [handleSplit] accepts what passes both checks: with some entered
    quantity above zero and no product exceeded, it calls [onSplit] once
    with one fragment per product that has a quantity above zero; when the
    call succeeds the form is cleared and the dialog closed, when it fails
    the quantities are kept and the retry alert is shown. *)
Theorem handleSplit_accepts (order : Order) (env : Env) (ok : bool)
    (st : SplitDialog.DialogState) (ps : list OrderProduct) :
  o_products order = Some ps →
  (∃ id q, SplitDialog.quantities st !! id = Some q ∧ num_lt Zero q) →
  Forall (λ product,
            ¬ num_lt (p_quantity product)
                     (SplitDialog.quantityOf st (p_id product))) ps →
  ∃ frs,
    length frs
      = length (List.filter
                  (λ product, ngt (SplitDialog.quantityOf st (p_id product)) Zero)
                  ps)
    ∧ SplitDialog.handleSplit order env ok st
      = if ok
        then (SplitDialog.mkDialogState ∅ false,
              [SplitDialog.OnSplit frs; SplitDialog.OnOpenChange false])
        else (SplitDialog.mkDialogState (SplitDialog.quantities st) false,
              [SplitDialog.OnSplit frs; SplitDialog.ConsoleError;
               SplitDialog.ShowAlert SplitDialog.TryAgain]).
Proof.
  intros Hps (id & q & Hq & Hpos) Hfit. unfold SplitDialog.handleSplit.
  rewrite bool_decide_eq_true_2
    by (exists id, q; split; [done|by apply ngt_spec]).
  simpl. rewrite Hps.
  assert (existsb (λ product, ngt (SplitDialog.quantityOf st (p_id product))
                                  (p_quantity product)) ps = false) as ->.
  { apply not_true_iff_false. intros (p & Hin & Hgt)%existsb_exists.
    apply list_elem_of_In in Hin. apply ngt_spec in Hgt.
    by apply (proj1 (Forall_forall _ _) Hfit p). }
  eexists. split; [|by destruct ok]. by rewrite length_imap.
Qed.

Lemma handleSplit_accepts_witness :
  ∃ frs,
    length frs = 1%nat
    ∧ SplitDialog.handleSplit order1 env0 true dialog1
      = (SplitDialog.mkDialogState ∅ false,
         [SplitDialog.OnSplit frs; SplitDialog.OnOpenChange false]).
Proof.
  apply (handleSplit_accepts order1 env0 true dialog1 [shirt; cap]).
  - reflexivity.
  - exists "p1", (of_Z 40). split; [reflexivity|]. constructor. reflexivity.
  - repeat constructor; intros H; apply nlt_spec in H; vm_compute in H;
      discriminate H.
Defined.

Lemma handleSplit_ids_distinct_witness :
  (∀ i, clock env0 i = 1700000000000)
  ∧ ∃ frs,
      frs ∈ splitLists (SplitDialog.handleSplit order1 env0 true dialogBoth).2
      ∧ length frs = 2%nat
      ∧ NoDup (s_id <$> frs).
Proof.
  assert (Hin : ∃ frs,
             frs ∈ splitLists
                     (SplitDialog.handleSplit order1 env0 true dialogBoth).2
             ∧ length frs = 2%nat).
  { eexists. split; [vm_compute; left|reflexivity]. }
  destruct Hin as (frs & Hin & Hlen).
  split; [reflexivity|]. exists frs. split; [exact Hin|]. split; [exact Hlen|].
  exact (handleSplit_ids_distinct order1 env0 true dialogBoth 1700000000000
           frs (λ _, eq_refl) Hin).
Defined.

(** X14. Every fragment [OrderSplitDialog.tsx] hands to [onSplit] has a
    quantity above zero and not above its product's quantity; when the
    product's total price is a rational that is not negative, the
    fragment's value is not negative. (No upper bound is stated for the
    value: in double precision it can exceed the total price, see
    [dialog_value_can_exceed_total_price].) *)
Theorem handleSplit_fragment_bounds (order : Order) (env : Env) (ok : bool)
    (st : SplitDialog.DialogState) (frs : list SplitFragment) (i : nat)
    (fr : SplitFragment) :
  frs ∈ splitLists (SplitDialog.handleSplit order env ok st).2 →
  frs !! i = Some fr →
  ∃ ps product,
    o_products order = Some ps ∧ product ∈ ps ∧
    s_product_name fr = p_product_name product ∧
    num_lt Zero (s_quantity fr) ∧
    ¬ num_lt (p_quantity product) (s_quantity fr) ∧
    ∀ t v, p_quantity product = Fin t → p_total_price product = Fin v →
           (0 ≤ v)%Qc →
           num_le Zero (s_value fr).
Proof.
  intros Hin Hfr.
  destruct (handleSplit_fragments order env ok st _ _ frs i fr
              (surjective_pairing _) Hin Hfr)
    as (ps & product & Hps & Hp & -> & Hpos & Hle).
  exists ps, product. split_and!; try done.
  intros t v HT HV Hv. cbn [s_value SplitDialog.makeFragment].
  rewrite HT, HV in *.
  destruct (SplitDialog.quantityOf st (p_id product)) as [x| | |];
    try (by inversion Hpos); [|by destruct Hle; constructor].
  inversion Hpos as [? ? Hx| | |]; subst.
  assert (x ≤ t)%Qc as Hxt.
  { apply Qcnot_lt_le. intros Hlt. apply Hle. by constructor. }
  assert (0 < t)%Qc as Ht by (by eapply Qclt_le_trans).
  simpl. rewrite decide_False by (by apply Qclt_not_eq in Ht).
  simpl.
  replace (v / t * x)%Qc with (v * (x / t))%Qc
    by (field; by apply Qclt_not_eq in Ht).
  apply num_le_fin.
  apply Qcmult_nonneg_nonneg; [done|].
  apply Qcmult_nonneg_nonneg; [by apply Qclt_le_weak|].
  by apply Qclt_le_weak, Qcinv_pos.
Qed.

Lemma handleSplit_fragment_bounds_witness :
  num_le Zero (s_value (SplitDialog.makeFragment order1 env0 dialog1 0 shirt)).
Proof.
  destruct (handleSplit_fragment_bounds order1 env0 true dialog1
              [SplitDialog.makeFragment order1 env0 dialog1 0 shirt] 0
              (SplitDialog.makeFragment order1 env0 dialog1 0 shirt))
    as (ps & product & Hps & Hp & Hname & _ & _ & Hv).
  - vm_compute. left.
  - reflexivity.
  - injection Hps as <-.
    apply list_elem_of_In in Hp. destruct Hp as [<-|[<-|[]]].
    + apply (Hv (Q2Qc (inject_Z 100)) (Q2Qc (inject_Z 500)));
        [reflexivity|reflexivity|discriminate].
    + discriminate Hname.
Defined.

(** Seven of seven units of a product worth 29: the dialog's
    [(29 / 7) * 7] is 29.000000000000004 in double precision, above the
    product's total price. *)
Example dialog_value_can_exceed_total_price :
  Binary64.splitValue 29 7 7 = 0x1.d000000000001p+4%float
  ∧ PrimFloat.ltb 29 (Binary64.splitValue 29 7 7) = true.
Proof. by vm_compute. Qed.

(** ** Further properties of the later split dialog *)

Lemma nor0_Some_id (a : num) : a ≠ NaN → nor0 (Some a) = a.
Proof.
  intros Ha. rewrite nor0_default; [done|]. by intros [= ?].
Qed.

Lemma nmin_spec (a m : num) :
  a ≠ NaN → m ≠ NaN →
  nmin a m ≠ NaN ∧ ¬ num_lt a (nmin a m) ∧ ¬ num_lt m (nmin a m).
Proof.
  intros Ha Hm. unfold nmin.
  destruct (nlt m a) eqn:Hlt.
  - apply nlt_spec in Hlt.
    destruct a, m; try done;
      (split_and!; [done| |apply num_lt_irrefl]);
      intros H; eapply num_lt_irrefl, num_lt_trans; eauto.
  - apply not_true_iff_false in Hlt. rewrite nlt_spec in Hlt.
    destruct a, m; try done;
      (split_and!; [done|apply num_lt_irrefl|done]).
Qed.

Lemma nmax_Zero_not_nan (a : num) : a ≠ NaN → nmax Zero a ≠ NaN.
Proof.
  intros Ha. unfold nmax. destruct a; try done. by destruct (nlt _ _).
Qed.

(** X15. In the later dialog [handleQuantityChange] clamps what is typed to
    the available quantity: right after it, the entered quantity of that
    product does not exceed what is available, so the excess check of
    [handleSplit] does not fire for it; and it is not negative as long as
    the available quantity is not. *)
Theorem later_handleQuantityChange_within_available (order : Order)
    (productId : string) (parsed : num) (st : SplitDialog2.DialogState) :
  ngt (SplitDialog2.quantityOf
         (SplitDialog2.handleQuantityChange order productId parsed st)
         productId)
      (SplitDialog2.getAvailableQuantity order productId) = false
  ∧ (num_le Zero (SplitDialog2.getAvailableQuantity order productId) →
     num_le Zero
       (SplitDialog2.quantityOf
          (SplitDialog2.handleQuantityChange order productId parsed st)
          productId)).
Proof.
  unfold SplitDialog2.quantityOf, SplitDialog2.handleQuantityChange.
  cbn [SplitDialog2.quantities]. rewrite lookup_insert_eq.
  generalize (SplitDialog2.getAvailableQuantity order productId). intros a.
  assert (nmax Zero (nor0 (Some parsed)) ≠ NaN) as Hm
    by apply nmax_Zero_not_nan, nor0_not_nan.
  assert (num_le Zero (nmax Zero (nor0 (Some parsed)))) as Hm0
    by apply nmax_Zero_nonneg, nor0_not_nan.
  revert Hm Hm0. generalize (nmax Zero (nor0 (Some parsed))). intros m Hm Hm0.
  destruct (decide (a = NaN)) as [->|Ha].
  { split; [done|]. by intros [H|[H _]]; [inversion H|]. }
  destruct (nmin_spec a m Ha Hm) as (Hn & Hna & Hnm).
  rewrite nor0_Some_id by done. split.
  - apply not_true_iff_false. by rewrite ngt_spec.
  - intros Ha0. unfold nmin in *.
    destruct a, m; try done; by destruct (nlt _ _).
Qed.

Lemma later_handleQuantityChange_within_available_witness :
  num_le Zero
    (SplitDialog2.quantityOf
       (SplitDialog2.handleQuantityChange order5 "p1" (of_Z 90) dialog5) "p1").
Proof.
  apply (proj2 (later_handleQuantityChange_within_available order5 "p1"
                  (of_Z 90) dialog5)).
  left. constructor. reflexivity.
Defined.

(** Typing 90 with 70 units available stores 70. *)
Example later_handleQuantityChange_clamps :
  SplitDialog2.quantityOf
    (SplitDialog2.handleQuantityChange order5 "p1" (of_Z 90) dialog5) "p1"
  = of_Z 70.
Proof. vm_compute. num_eq. Qed.

Lemma handleSplit2_value_witness :
  ∃ ps product,
    o_products order5 = Some ps ∧ product ∈ ps ∧
    s_quantity (SplitDialog2.makeFragment order5 env0 dialog5 0 shirt)
      = SplitDialog2.quantityOf dialog5 (p_id product) ∧
    p_quantity product ≠ Zero ∧
    s_value (SplitDialog2.makeFragment order5 env0 dialog5 0 shirt)
    = nmul (ndiv (p_total_price product) (p_quantity product))
           (s_quantity (SplitDialog2.makeFragment order5 env0 dialog5 0 shirt)).
Proof.
  apply (handleSplit2_value order5 env0 true dialog5
           [SplitDialog2.makeFragment order5 env0 dialog5 0 shirt] 0).
  - intros fs f [= <-] ->%list_elem_of_singleton.
    left. constructor. reflexivity.
  - intros ps product [= <-] Hin. apply list_elem_of_In in Hin.
    by destruct Hin as [<-|[<-|[]]].
  - vm_compute. left.
  - reflexivity.
Defined.

(** X17. The later dialog refuses like the first one: with no entered
    quantity above zero it shows the "specify a quantity" alert, and
    otherwise, with some product's entered quantity above what is
    available, the "exceeds available" alert; in both cases [onSplit] is
    not called and the quantities are kept. *)
Theorem later_handleSplit_refuses (order : Order) (env : Env) (ok : bool)
    (st : SplitDialog2.DialogState) :
  ((∀ id q, SplitDialog2.quantities st !! id = Some q → ¬ num_lt Zero q) →
   SplitDialog2.handleSplit order env ok st
   = (SplitDialog2.mkDialogState (SplitDialog2.quantities st) false,
      [SplitDialog2.ShowAlert SplitDialog2.SpecifyQuantity]))
  ∧
  ((∃ id q, SplitDialog2.quantities st !! id = Some q ∧ num_lt Zero q) →
   (∃ ps product,
      o_products order = Some ps ∧ product ∈ ps ∧
      num_lt (SplitDialog2.getAvailableQuantity order (p_id product))
             (SplitDialog2.quantityOf st (p_id product))) →
   SplitDialog2.handleSplit order env ok st
   = (SplitDialog2.mkDialogState (SplitDialog2.quantities st) false,
      [SplitDialog2.ShowAlert SplitDialog2.ExceedsAvailable])).
Proof.
  unfold SplitDialog2.handleSplit. split.
  - intros Hno. rewrite bool_decide_eq_false_2; [done|].
    intros (id & q & Hq & Hpos). apply ngt_spec in Hpos. by destruct (Hno id q).
  - intros (id & q & Hq & Hpos) (ps & product & Hps & Hin & Hlt).
    rewrite bool_decide_eq_true_2
      by (exists id, q; split; [done|by apply ngt_spec]).
    simpl. rewrite Hps.
    assert (existsb (λ product,
                       ngt (SplitDialog2.quantityOf st (p_id product))
                           (SplitDialog2.getAvailableQuantity order (p_id product)))
                    ps = true) as ->; [|done].
    apply existsb_exists. exists product.
    split; [by apply list_elem_of_In|by apply ngt_spec].
Qed.

Lemma later_handleSplit_refuses_witness :
  SplitDialog2.handleSplit order5 env0 true (SplitDialog2.mkDialogState ∅ false)
  = (SplitDialog2.mkDialogState ∅ false,
     [SplitDialog2.ShowAlert SplitDialog2.SpecifyQuantity])
  ∧ SplitDialog2.handleSplit order5 env0 true
      (SplitDialog2.mkDialogState {[ "p1" := of_Z 80 ]} false)
    = (SplitDialog2.mkDialogState {[ "p1" := of_Z 80 ]} false,
       [SplitDialog2.ShowAlert SplitDialog2.ExceedsAvailable]).
Proof.
  split.
  - apply (proj1 (later_handleSplit_refuses order5 env0 true
                    (SplitDialog2.mkDialogState ∅ false))).
    intros id q Hq. discriminate Hq.
  - pose proof (proj2 (later_handleSplit_refuses order5 env0 true
                    (SplitDialog2.mkDialogState {[ "p1" := of_Z 80 ]} false)))
      as H.
    cbn [SplitDialog2.quantities] in H. apply H.
    + exists "p1", (of_Z 80). split; [reflexivity|]. constructor. reflexivity.
    + exists [shirt; cap], shirt. split; [reflexivity|].
      split; [left|]. apply nlt_spec. vm_compute. reflexivity.
Defined.

Lemma find_none_Forall {A : Type} (f : A → bool) (l : list A) :
  Forall (λ x, f x = false) l → List.find f l = None.
Proof. induction 1 as [|x l Hx _ IH]; [done|]. simpl. by rewrite Hx. Qed.

Lemma nsub_Zero_r (a : num) : nsub a Zero = a.
Proof.
  destruct a; try done. unfold nsub. simpl. apply (f_equal Fin). ring.
Qed.

Lemma nsub_nonneg_le (t : Qc) (a : num) :
  num_le Zero a → num_le (nsub (Fin t) a) (Fin t).
Proof.
  intros Ha. destruct a as [y| | |];
    try (by destruct Ha as [Ha|[? ?]]; [inversion Ha|]).
  - apply num_le_fin in Ha. unfold nsub. simpl. apply num_le_fin.
    rewrite <- (Qcplus_0_r t) at 2. apply Qcplus_le_mono_l.
    apply Qcopp_le_compat in Ha. by replace (- 0)%Qc with 0%Qc in Ha by ring.
  - left. constructor.
Qed.

Lemma fold_left_ext {A B : Type} (f g : A → B → A) (l : list B) (a : A) :
  (∀ x y, f x y = g x y) → fold_left f l a = fold_left g l a.
Proof.
  intros Hfg. revert a. induction l as [|y l IH]; intros a; [done|].
  simpl. by rewrite Hfg, IH.
Qed.

(** The quantity available for a product found by its id is the one the
    product card displays. *)
Lemma getAvailableQuantity_found (order : Order) (product : OrderProduct) :
  foundByItsId order product →
  SplitDialog2.getAvailableQuantity order (p_id product)
  = SplitDialog2.viewAvailableQty order product.
Proof.
  intros Hfound. unfold SplitDialog2.getAvailableQuantity,
    SplitDialog2.viewAvailableQty.
  unfold foundByItsId in Hfound. rewrite Hfound.
  destruct (o_fragments order) as [fs|]; [|done].
  cbn [fmap option_fmap option_map]. do 3 f_equal.
  apply fold_left_ext. intros sum f. by destruct (bool_decide _), (bool_decide _).
Qed.

Lemma viewAvailableQty_le (order : Order) (product : OrderProduct) (t : Qc) :
  fragmentsNotNegative order → p_quantity product = Fin t →
  num_le (SplitDialog2.viewAvailableQty order product) (Fin t).
Proof.
  intros Hfs HT. unfold SplitDialog2.viewAvailableQty. rewrite HT.
  apply nsub_nonneg_le.
  destruct (o_fragments order) as [fs|] eqn:Hofs; [|by apply num_le_refl].
  cbn [fmap option_fmap option_map]. apply nor0_nonneg.
  apply (fold_left_nonneg
           (λ f, if bool_decide (s_product_id f
                                 = sor (p_product_id product) (p_id product))
                    || bool_decide (s_product_id f = p_id product)
                 then s_quantity f else Zero)).
  - by apply num_le_refl.
  - intros f Hf. destruct (_ || _); [by eapply Hfs|by apply num_le_refl].
Qed.

(** X18. [getAvailableQuantity] of the later dialog: an id that no product
    answers to has nothing available; a product with no fragment recorded
    has its whole quantity available; and with no negative quantity among
    the recorded fragments, what is available never exceeds the product's
    quantity. *)
Theorem getAvailableQuantity_bounds (order : Order) :
  (∀ productId,
     (∀ ps, o_products order = Some ps →
            Forall (λ p, p_id p ≠ productId ∧ p_product_id p ≠ Some productId)
                   ps) →
     SplitDialog2.getAvailableQuantity order productId = Zero)
  ∧
  (∀ product,
     foundByItsId order product →
     o_fragments order = None ∨ o_fragments order = Some [] →
     SplitDialog2.getAvailableQuantity order (p_id product)
     = p_quantity product)
  ∧
  (∀ product t,
     foundByItsId order product →
     fragmentsNotNegative order →
     p_quantity product = Fin t →
     num_le (SplitDialog2.getAvailableQuantity order (p_id product)) (Fin t)).
Proof.
  split_and!.
  - intros productId Hnone. unfold SplitDialog2.getAvailableQuantity.
    destruct (o_products order) as [ps|]; [|done]. simpl.
    rewrite find_none_Forall; [done|].
    eapply Forall_impl; [by apply Hnone|]. intros p [H1 H2]. simpl.
    by rewrite !bool_decide_eq_false_2.
  - intros product Hfound Hfs. rewrite getAvailableQuantity_found by done.
    unfold SplitDialog2.viewAvailableQty.
    destruct Hfs as [-> | ->]; apply nsub_Zero_r.
  - intros product t Hfound Hfs HT. rewrite getAvailableQuantity_found by done.
    by apply viewAvailableQty_le.
Qed.

Lemma getAvailableQuantity_bounds_witness :
  SplitDialog2.getAvailableQuantity order5 "p7" = Zero
  ∧ SplitDialog2.getAvailableQuantity order1 (p_id cap) = p_quantity cap
  ∧ num_le (SplitDialog2.getAvailableQuantity order5 (p_id shirt))
           (Fin (Q2Qc (inject_Z 100))).
Proof.
  split_and!.
  - apply (proj1 (getAvailableQuantity_bounds order5) "p7").
    intros ps [= <-]. repeat constructor; discriminate.
  - apply (proj1 (proj2 (getAvailableQuantity_bounds order1)) cap).
    + reflexivity.
    + left. reflexivity.
  - apply (proj2 (proj2 (getAvailableQuantity_bounds order5)) shirt).
    + reflexivity.
    + intros fs f [= <-] ->%list_elem_of_singleton.
      left. constructor. reflexivity.
    + reflexivity.
Defined.

(** X19. For a product that its own id resolves to, the available quantity
    that [handleQuantityChange], [incrementQuantity] and [handleSplit]
    enforce is the one the product card displays. *)
Theorem available_enforced_is_displayed (order : Order)
    (product : OrderProduct) :
  foundByItsId order product →
  SplitDialog2.getAvailableQuantity order (p_id product)
  = SplitDialog2.viewAvailableQty order product.
Proof. apply getAvailableQuantity_found. Qed.

Lemma available_enforced_is_displayed_witness :
  SplitDialog2.getAvailableQuantity order5 (p_id shirt)
  = SplitDialog2.viewAvailableQty order5 shirt.
Proof.
  apply (available_enforced_is_displayed order5 shirt). reflexivity.
Defined.

(** When another product carries the id as its [product_id], the two differ:
    the handlers look at the other product. *)
Example available_enforced_not_displayed :
  let alias := mkProduct "p8" (Some "p2") "Bone" "U" "Azul" (of_Z 3) (of_Z 24) in
  let order := mkOrder "o8" "1008" (Some [alias; cap]) None in
  SplitDialog2.getAvailableQuantity order (p_id cap) = of_Z 3
  ∧ SplitDialog2.viewAvailableQty order cap = of_Z 10.
Proof. split; vm_compute; num_eq. Qed.

Lemma num_lt_le_trans (a b c : num) : num_lt a b → num_le b c → num_lt a c.
Proof.
  intros Hab [H|[<- _]]; [by eapply num_lt_trans|done].
Qed.

Lemma Qc_pred_lt (c : Qc) : (c + - 1 < c)%Qc.
Proof.
  rewrite <- (Qcplus_0_r c) at 2. apply Qcplus_lt_mono_l. reflexivity.
Qed.

Lemma Qc_succ_pos (c : Qc) : (0 ≤ c)%Qc → (0 < c + 1)%Qc.
Proof. intros Hc. apply Qcplus_nonneg_pos; [done|reflexivity]. Qed.

(** X20. In the later dialog the two step buttons undo each other: after a
    decrement from a quantity above zero that is within what is available,
    an increment brings the quantity back; and after an increment from a
    quantity that is not negative and below what is available, a decrement
    brings it back. *)
Theorem later_step_buttons_undo (order : Order) (productId : string)
    (st : SplitDialog2.DialogState) (c : Qc) :
  SplitDialog2.quantityOf st productId = Fin c →
  ((0 < c)%Qc →
   num_le (Fin c) (SplitDialog2.getAvailableQuantity order productId) →
   SplitDialog2.quantityOf
     (SplitDialog2.incrementQuantity order productId
        (SplitDialog2.decrementQuantity productId st)) productId = Fin c)
  ∧
  ((0 ≤ c)%Qc →
   num_lt (Fin c) (SplitDialog2.getAvailableQuantity order productId) →
   SplitDialog2.quantityOf
     (SplitDialog2.decrementQuantity productId
        (SplitDialog2.incrementQuantity order productId st)) productId = Fin c).
Proof.
  intros Hc. split.
  - intros Hpos Hle. unfold SplitDialog2.decrementQuantity. rewrite Hc.
    assert (ngt (Fin c) Zero = true) as -> by (apply ngt_spec; by constructor).
    unfold SplitDialog2.incrementQuantity, SplitDialog2.quantityOf.
    cbn [SplitDialog2.quantities]. rewrite lookup_insert_eq.
    rewrite (nor0_Some_id (nsub (Fin c) One)) by done.
    assert (nlt (nsub (Fin c) One)
                (SplitDialog2.getAvailableQuantity order productId) = true)
      as ->.
    { apply nlt_spec. eapply num_lt_le_trans; [|done].
      constructor. apply Qc_pred_lt. }
    cbn [SplitDialog2.quantities]. rewrite lookup_insert_eq.
    rewrite nor0_Some_id by done. simpl. apply (f_equal Fin). ring.
  - intros Hpos Hlt. unfold SplitDialog2.incrementQuantity. rewrite Hc.
    assert (nlt (Fin c) (SplitDialog2.getAvailableQuantity order productId)
            = true) as -> by (by apply nlt_spec).
    unfold SplitDialog2.decrementQuantity, SplitDialog2.quantityOf.
    cbn [SplitDialog2.quantities]. rewrite lookup_insert_eq.
    rewrite (nor0_Some_id (nadd (Fin c) One)) by done.
    assert (ngt (nadd (Fin c) One) Zero = true) as ->.
    { apply ngt_spec. constructor. by apply Qc_succ_pos. }
    cbn [SplitDialog2.quantities]. rewrite lookup_insert_eq.
    rewrite nor0_Some_id by done. simpl. apply (f_equal Fin). ring.
Qed.

Lemma later_step_buttons_undo_witness :
  SplitDialog2.quantityOf
    (SplitDialog2.incrementQuantity order5 "p1"
       (SplitDialog2.decrementQuantity "p1" dialog5)) "p1"
  = Fin (Q2Qc (inject_Z 40))
  ∧ SplitDialog2.quantityOf
      (SplitDialog2.decrementQuantity "p1"
         (SplitDialog2.incrementQuantity order5 "p1" dialog5)) "p1"
    = Fin (Q2Qc (inject_Z 40)).
Proof.
  split.
  - apply (proj1 (later_step_buttons_undo order5 "p1" dialog5
                    (Q2Qc (inject_Z 40)) eq_refl)).
    + reflexivity.
    + left. apply nlt_spec. vm_compute. reflexivity.
  - apply (proj2 (later_step_buttons_undo order5 "p1" dialog5
                    (Q2Qc (inject_Z 40)) eq_refl)).
    + discriminate.
    + apply nlt_spec. vm_compute. reflexivity.
Defined.

(** ** The totals line of the first form version *)

Lemma Fin_inj (a b : Qc) : Fin a = Fin b → a = b.
Proof.
  intros H.
  exact (f_equal (λ n, match n with Fin q => q | _ => a end) H).
Qed.

(** X24. On rational totals, the difference the first version displays is
    zero (the line is green) exactly when the fragmented total equals the
    product's quantity, and above zero (shown with a plus sign) exactly
    when the total exceeds it. *)
Theorem quantityDifference_agrees (props : Props) (st : State) (s t : Qc) :
  Form.getTotalFragmentQuantity st = Fin s →
  Form.productTotalQuantity props (selectedProductId st) = Fin t →
  Form.quantityDifference props st = Fin (s - t)%Qc
  ∧ nseq (Form.quantityDifference props st) Zero = nseq (Fin s) (Fin t)
  ∧ ngt (Form.quantityDifference props st) Zero = ngt (Fin s) (Fin t).
Proof.
  intros Hs Ht. unfold Form.quantityDifference. rewrite Hs, Ht.
  split; [done|]. split.
  - apply eq_true_iff_eq. rewrite !nseq_spec. split.
    + intros [H%Fin_inj _]. split; [|done]. apply (f_equal Fin).
      rewrite <- (Qcplus_0_l t), <- H. ring.
    + intros [->%Fin_inj _]. split; [|done]. unfold nsub. simpl.
      apply (f_equal Fin). ring.
  - apply eq_true_iff_eq. rewrite !ngt_spec. split.
    + intros Hlt. inversion Hlt as [? ? Hq| | |]; subst. constructor.
      apply Qclt_minus_iff. exact Hq.
    + intros Hlt. inversion Hlt as [? ? Hq| | |]; subst. constructor.
      apply Qclt_minus_iff in Hq. exact Hq.
Qed.

Lemma quantityDifference_agrees_witness :
  Form.quantityDifference props2 strictValid
    = Fin (Q2Qc (inject_Z 100) - Q2Qc (inject_Z 100))%Qc
  ∧ nseq (Form.quantityDifference props2 strictValid) Zero
    = nseq (Fin (Q2Qc (inject_Z 100))) (Fin (Q2Qc (inject_Z 100)))
  ∧ ngt (Form.quantityDifference props2 strictValid) Zero
    = ngt (Fin (Q2Qc (inject_Z 100))) (Fin (Q2Qc (inject_Z 100))).
Proof.
  apply (quantityDifference_agrees props2 strictValid).
  - vm_compute. num_eq.
  - vm_compute. num_eq.
Defined.

(** ** The default draft *)

Lemma this_Q2Qc (q : Q) : (this (Q2Qc q) == q)%Q.
Proof. apply Qred_correct. Qed.

Lemma this_Qcdiv (a b : Qc) : (this (a / b)%Qc == this a / this b)%Q.
Proof.
  unfold Qcdiv, Qcmult, Qcinv. rewrite this_Q2Qc.
  unfold Qdiv. by rewrite this_Q2Qc.
Qed.

Lemma Qc_of_Z_lt (a b : Z) :
  (Q2Qc (inject_Z a) < Q2Qc (inject_Z b))%Qc ↔ (a < b)%Z.
Proof.
  unfold Qclt. rewrite !this_Q2Qc. by rewrite Zlt_Qlt.
Qed.

(** The quarter of a quantity of one or more, rounded up and raised to one,
    is a whole number between one and the quantity. *)
Lemma defaultQuantity_bounds (t : Qc) :
  (1 ≤ t)%Qc →
  ∃ n, (1 ≤ n)%Z
       ∧ nmax One (nceil (ndiv (Fin t) (of_Z 4))) = of_Z n
       ∧ (Q2Qc (inject_Z n) ≤ t)%Qc.
Proof.
  intros Ht. unfold of_Z at 1. cbn [ndiv].
  rewrite decide_False by discriminate. cbn [nceil].
  set (c := Qceiling (this (t / Q2Qc (inject_Z 4))%Qc)).
  unfold nmax, One, of_Z. cbn [nlt].
  case_bool_decide as Hc.
  - apply (proj1 (Qc_of_Z_lt 1 c)) in Hc.
    exists c. split; [lia|]. split; [done|].
    unfold Qcle. rewrite this_Q2Qc.
    pose proof (Qceiling_lt (this (t / Q2Qc (inject_Z 4))%Qc)) as Hlt.
    fold c in Hlt. rewrite this_Qcdiv, this_Q2Qc in Hlt.
    replace (c - 1)%Z with (c + -1)%Z in Hlt by lia.
    rewrite inject_Z_plus in Hlt.
    assert (inject_Z 2 <= inject_Z c)%Q as H2
      by (rewrite <- (Zle_Qle 2 c); lia).
    change (inject_Z 2) with 2%Q in H2.
    change (inject_Z 4) with 4%Q in Hlt.
    change (inject_Z (-1)) with (-1)%Q in Hlt.
    clear Hc Ht. clearbody c. revert Hlt H2.
    generalize (inject_Z c) (this t). intros z q Hlt H2.
    unfold Qdiv in Hlt. change (/ 4)%Q with (1 # 4)%Q in Hlt. lra.
  - exists 1%Z. split; [lia|]. split; [done|]. exact Ht.
Qed.

(** X23. In the second form version, a form opened on a product of
    rational quantity one or more that has no persisted fragment starts
    with a single draft of a whole quantity of at least one, and this
    draft list is valid at once under the partial-allowed policy. *)
Theorem default_draft_is_partially_valid (props : Props) (env : Env)
    (sel : string) (cal : option nat) (t : Qc) :
  filter (λ f, f_productId f = Some sel) (initialFragments props) = [] →
  Form.productTotalQuantity props sel = Fin t →
  (1 ≤ t)%Qc →
  (∃ d n, Partial.initializeFragments props sel env = [d]
          ∧ f_quantity d = Some (of_Z n) ∧ (1 ≤ n)%Z)
  ∧ Partial.isValid props
      (mkState sel (Partial.initializeFragments props sel env) cal) = true.
Proof.
  intros Hnone HT Ht. unfold Partial.initializeFragments. rewrite Hnone.
  rewrite bool_decide_eq_false_2 by (simpl; lia).
  destruct (defaultQuantity_bounds t Ht) as (n & Hn & Hq & Hle).
  assert (f_quantity (Partial.defaultFragment props sel env) = Some (of_Z n))
    as Hfq by (unfold Partial.defaultFragment; cbn [f_quantity];
               by rewrite HT, Hq).
  assert (positive (of_Z n)) as Hpos.
  { constructor. apply (proj2 (Qc_of_Z_lt 0 n)). lia. }
  split; [by eexists _, n|].
  apply partial_isValid_unfold. cbn [selectedProductId fragments].
  unfold Form.getTotalFragmentQuantity. cbn [fragments fold_left].
  rewrite Hfq, nadd_Zero_l, positive_nor0, HT by done.
  split_and!; [done|by apply num_le_fin|].
  repeat constructor; [by exists (of_Z n)|by eexists].
Qed.

Lemma default_draft_is_partially_valid_witness :
  Partial.isValid props1
    (mkState "p2" (Partial.initializeFragments props1 "p2" env0) None) = true.
Proof.
  apply (default_draft_is_partially_valid props1 env0 "p2" None
           (Q2Qc (inject_Z 10))).
  - reflexivity.
  - vm_compute. num_eq.
  - discriminate.
Defined.

(** ** Identifiers when no draft is removed *)

Lemma string_length_app (s1 s2 : string) :
  String.length (s1 +:+ s2) = (String.length s1 + String.length s2)%nat.
Proof. induction s1 as [|a s1 IH]; simpl; [done|]. by rewrite IH. Qed.

Lemma string_app_inj_r (s1 s2 s : string) : s1 +:+ s = s2 +:+ s → s1 = s2.
Proof.
  revert s2. induction s1 as [|a s1 IH]; intros [|b s2] H; simpl in H.
  - done.
  - apply (f_equal String.length) in H.
    rewrite ?string_length_app in H. simpl in H.
    rewrite ?string_length_app in H. lia.
  - apply (f_equal String.length) in H.
    rewrite ?string_length_app in H. simpl in H.
    rewrite ?string_length_app in H. lia.
  - injection H as -> H. f_equal. by apply IH.
Qed.

Lemma NoDup_imap_index {A B : Type} (g : nat → B) (l : list A) :
  Inj (=) (=) g → NoDup (imap (λ i _, g i) l).
Proof.
  intros Hg. apply NoDup_alt. intros i j y Hi Hj.
  rewrite list_lookup_imap in Hi, Hj.
  destruct (l !! i); [|done]. destruct (l !! j); [|done].
  simpl in Hi, Hj. apply Hg. congruence.
Qed.

Lemma numbered_app (l : list Fragment) (d : Fragment) :
  numbered l →
  f_fragmentNumber d = Some (Z.of_nat (length l) + 1) → f_id d = None →
  numbered (l ++ [d]).
Proof.
  intros Hl Hn Hid i d' Hi.
  apply lookup_app_Some in Hi as [Hi|[Hge Hi]]; [by apply Hl|].
  apply list_lookup_singleton_Some in Hi as [Hi <-].
  replace i with (length l) by lia. done.
Qed.

Lemma numbered_alter (fv : FieldValue) (index : nat) (l : list Fragment) :
  numbered l → numbered (alter (setField fv) index l).
Proof.
  intros Hl i d Hi. destruct (decide (index = i)) as [->|Hne].
  - rewrite list_lookup_alter_eq in Hi.
    destruct (l !! i) as [d0|] eqn:Hd0; [|done]. simpl in Hi. simplify_eq.
    destruct (Hl i d0 Hd0). by destruct fv.
  - rewrite list_lookup_alter_ne in Hi by done. by apply Hl.
Qed.

Lemma numbered_singleton (d : Fragment) :
  f_fragmentNumber d = Some 1 → f_id d = None → numbered [d].
Proof.
  intros Hn Hid i d' Hi. apply list_lookup_singleton_Some in Hi as [-> <-].
  done.
Qed.

Lemma strict_initializeFragments_numbered (props : Props) (sel : string)
    (env : Env) :
  initialFragments props = [] →
  numbered (Strict.initializeFragments props sel env).
Proof.
  intros Hnone. unfold Strict.initializeFragments. rewrite Hnone.
  by apply numbered_singleton.
Qed.

Lemma partial_initializeFragments_numbered (props : Props) (sel : string)
    (env : Env) :
  initialFragments props = [] →
  numbered (Partial.initializeFragments props sel env).
Proof.
  intros Hnone. unfold Partial.initializeFragments. rewrite Hnone.
  by apply numbered_singleton.
Qed.

Lemma strict_step_numbered (props : Props) (env : Env) (ev : Event)
    (st : State) :
  initialFragments props = [] → (∀ i, ev ≠ Remove i) →
  numbered (fragments st) →
  numbered (fragments (Strict.step props env ev st).1).
Proof.
  intros Hnone Hev H. destruct ev; cbn [Strict.step fst].
  - by apply numbered_app.
  - by destruct (Hev index).
  - rewrite updateFragment_fragments. by apply numbered_alter.
  - unfold Form.updateFragmentDate. cbn [fragments].
    rewrite updateFragment_fragments. by apply numbered_alter.
  - unfold Strict.selectProduct. case_bool_decide; [done|].
    by apply strict_initializeFragments_numbered.
  - by rewrite strict_handleSave_state.
Qed.

Lemma partial_step_numbered (props : Props) (env : Env) (ev : Event)
    (st : State) :
  initialFragments props = [] → (∀ i, ev ≠ Remove i) →
  numbered (fragments st) →
  numbered (fragments (Partial.step props env ev st).1).
Proof.
  intros Hnone Hev H. destruct ev; cbn [Partial.step fst].
  - by apply numbered_app.
  - by destruct (Hev index).
  - rewrite updateFragment_fragments. by apply numbered_alter.
  - unfold Form.updateFragmentDate. cbn [fragments].
    rewrite updateFragment_fragments. by apply numbered_alter.
  - unfold Partial.selectProduct. case_bool_decide; [done|].
    by apply partial_initializeFragments_numbered.
  - by rewrite partial_handleSave_state.
Qed.

Lemma strict_run_numbered (props : Props) (evs : list (Env * Event))
    (st : State) :
  initialFragments props = [] →
  Forall (λ e, ∀ i, e.2 ≠ Remove i) evs →
  numbered (fragments st) →
  numbered (fragments (Strict.run props evs st).1).
Proof.
  intros Hnone Hevs. revert st.
  induction Hevs as [|[env ev] evs Hev _ IH]; intros st H; [done|].
  rewrite strict_run_cons. simpl. by apply IH, strict_step_numbered.
Qed.

Lemma partial_run_numbered (props : Props) (evs : list (Env * Event))
    (st : State) :
  initialFragments props = [] →
  Forall (λ e, ∀ i, e.2 ≠ Remove i) evs →
  numbered (fragments st) →
  numbered (fragments (Partial.run props evs st).1).
Proof.
  intros Hnone Hevs. revert st.
  induction Hevs as [|[env ev] evs Hev _ IH]; intros st H; [done|].
  rewrite partial_run_cons. simpl. by apply IH, partial_step_numbered.
Qed.

Lemma strict_handleSave_ids (props : Props) (env : Env) (st : State)
    (saved : list Fragment) :
  saved ∈ savedLists (Strict.handleSave props env st).2 →
  f_id <$> saved
  = (f_id <$> otherProducts props (selectedProductId st))
    ++ imap (λ i d, Some (Form.savedId props env i d)) (fragments st).
Proof.
  unfold Strict.handleSave. destruct (negb _); simpl.
  - by intros ?%elem_of_nil.
  - intros ->%list_elem_of_singleton. by rewrite fmap_app, fmap_imap.
Qed.

Lemma partial_handleSave_ids (props : Props) (env : Env) (st : State)
    (saved : list Fragment) :
  saved ∈ savedLists (Partial.handleSave props env st).2 →
  f_id <$> saved
  = (f_id <$> otherProducts props (selectedProductId st))
    ++ imap (λ i d, Some (Form.savedId props env i d)) (fragments st).
Proof.
  unfold Partial.handleSave. destruct (negb _); simpl.
  - by intros ?%elem_of_nil.
  - intros ->%list_elem_of_singleton. by rewrite fmap_app, fmap_imap.
Qed.

(** With drafts numbered by position and one clock value, the identifiers
    built at save time are pairwise distinct. *)
Lemma numbered_ids_distinct (props : Props) (env : Env) (t : Z)
    (l : list Fragment) :
  numbered l → (∀ i, clock env i = t) →
  NoDup (imap (λ i d, Some (Form.savedId props env i d)) l).
Proof.
  intros Hl Hclock.
  rewrite (imap_ext _
             (λ i _, Some (o_id (order props) +:+ "-frag-"
                             +:+ pretty (Z.of_nat i + 1)
                             +:+ "-" +:+ pretty t))).
  - apply NoDup_imap_index. intros i j [= H].
    do 2 apply (inj (String.app _)) in H.
    apply string_app_inj_r, (inj pretty) in H. lia.
  - intros i d Hd. destruct (Hl i d Hd) as [Hn Hid]. simpl.
    unfold Form.savedId, fragmentNumberOr. rewrite Hid, Hn, Hclock. simpl.
    by rewrite bool_decide_eq_true_2 by lia.
Qed.

(** X22. On an order with no persisted fragments, a session in which no
    draft is removed keeps the drafts numbered 1, 2, 3, ... by position,
    and the identifiers given at a save that reads one clock value are then
    pairwise distinct, in both form versions. *)
Theorem ids_distinct_without_removal (props : Props) (env0 env : Env)
    (evs : list (Env * Event)) (t : Z) (saved : list Fragment) :
  initialFragments props = [] →
  Forall (λ e, ∀ i, e.2 ≠ Remove i) evs →
  (∀ i, clock env i = t) →
  (saved ∈ savedLists
             (Strict.handleSave props env
                (Strict.run props evs (Strict.mount props env0)).1).2 →
   NoDup (f_id <$> saved))
  ∧
  (saved ∈ savedLists
             (Partial.handleSave props env
                (Partial.run props evs (Partial.mount props env0)).1).2 →
   NoDup (f_id <$> saved)).
Proof.
  intros Hnone Hevs Hclock. split; intros Hin.
  - rewrite (strict_handleSave_ids _ _ _ _ Hin).
    unfold otherProducts. rewrite Hnone. simpl.
    apply (numbered_ids_distinct props env t); [|done].
    apply strict_run_numbered; [done..|].
    by apply strict_initializeFragments_numbered.
  - rewrite (partial_handleSave_ids _ _ _ _ Hin).
    unfold otherProducts. rewrite Hnone. simpl.
    apply (numbered_ids_distinct props env t); [|done].
    apply partial_run_numbered; [done..|].
    by apply partial_initializeFragments_numbered.
Qed.

Lemma ids_distinct_without_removal_witness :
  initialFragments props1 = []
  ∧ Forall (λ e : Env * Event, ∀ i, e.2 ≠ Remove i) split4060
  ∧ (∀ i, clock env0 i = 1700000000000)
  ∧ ∃ saved,
      saved ∈ savedLists
                (Strict.handleSave props1 env0
                   (Strict.run props1 split4060 (Strict.mount props1 env0)).1).2
      ∧ length saved = 2%nat
      ∧ NoDup (f_id <$> saved).
Proof.
  assert (Hevs : Forall (λ e : Env * Event, ∀ i, e.2 ≠ Remove i) split4060).
  { repeat constructor; simpl; discriminate. }
  assert (Hin : ∃ saved,
             saved ∈ savedLists
                       (Strict.handleSave props1 env0
                          (Strict.run props1 split4060
                             (Strict.mount props1 env0)).1).2
             ∧ length saved = 2%nat).
  { eexists. split; [vm_compute; left|reflexivity]. }
  destruct Hin as (saved & Hin & Hlen).
  split; [reflexivity|]. split; [exact Hevs|]. split; [reflexivity|].
  exists saved. split; [exact Hin|]. split; [exact Hlen|].
  exact (proj1 (ids_distinct_without_removal props1 env0 env0 split4060
                  1700000000000 saved eq_refl Hevs (λ _, eq_refl)) Hin).
Defined.

(** ** Saving, reopening and saving again *)

Lemma nor0_idem (x : option num) : nor0 (Some (nor0 x)) = nor0 x.
Proof.
  destruct x as [a|]; simpl; [|reflexivity].
  destruct (ntruthy a) eqn:E; simpl; [by rewrite E|reflexivity].
Qed.

Lemma sor_nonempty (s : option string) (d : string) : d ≠ "" → sor s d ≠ "".
Proof.
  intros Hd. destruct s as [x|]; simpl; [|done]. by case_bool_decide.
Qed.

Lemma sor_idem (s : option string) (d : string) :
  d ≠ "" → sor (Some (sor s d)) d = sor s d.
Proof.
  intros Hd. simpl. rewrite bool_decide_eq_true_2; [done|].
  by apply sor_nonempty.
Qed.

Lemma savedId_nonempty (props : Props) (env : Env) (index : nat)
    (fragment : Fragment) :
  Form.savedId props env index fragment ≠ "".
Proof.
  unfold Form.savedId. apply sor_nonempty. intros H.
  apply (f_equal String.length) in H. rewrite string_length_app in H.
  simpl in H. lia.
Qed.

Lemma fragmentNumberOr_nonzero (f : Fragment) (index : nat) :
  fragmentNumberOr f index ≠ 0.
Proof.
  unfold fragmentNumberOr. destruct (f_fragmentNumber f) as [n|]; [|lia].
  case_bool_decide; [done|lia].
Qed.

Lemma imap_imap_ext {A B C : Type} (G : nat → A → B) (G' : nat → B → C)
    (K : nat → A → C) (l : list A) :
  (∀ i d, G' i (G i d) = K i d) → imap G' (imap G l) = imap K l.
Proof.
  intros H. apply list_eq. intros i. rewrite !list_lookup_imap.
  destruct (l !! i); simpl; [|done]. by rewrite H.
Qed.

Lemma forallb_imap_impl {A : Type} (p : A → bool) (G : nat → A → A)
    (l : list A) :
  (∀ i d, p d = true → p (G i d) = true) →
  forallb p l = true → forallb p (imap G l) = true.
Proof.
  revert G. induction l as [|x l IH]; intros G H; simpl; [done|].
  rewrite !andb_true_iff. intros [Hx Hl]. split; [by apply H|].
  apply IH; [|done]. intros i d. apply H.
Qed.

Lemma fold_left_imap_same {A : Type} (g : A → num) (G : nat → A → A)
    (l : list A) (a : num) :
  (∀ i d, g (G i d) = g d) →
  fold_left (λ s f, nadd s (g f)) (imap G l) a
  = fold_left (λ s f, nadd s (g f)) l a.
Proof.
  revert G a. induction l as [|x l IH]; intros G a H; simpl; [done|].
  rewrite H. apply IH. intros i d. apply H.
Qed.

Lemma filter_all {A : Type} (P : A → Prop) `{∀ x, Decision (P x)}
    (l : list A) :
  Forall P l → filter P l = l.
Proof.
  induction 1 as [|x l Hx _ IH]; [done|].
  by rewrite filter_cons_True, IH.
Qed.

Lemma Forall_imap_all {A B : Type} (P : B → Prop) (G : nat → A → B)
    (l : list A) :
  (∀ i d, P (G i d)) → Forall P (imap G l).
Proof.
  intros H. apply Forall_lookup. intros i y Hy.
  rewrite list_lookup_imap in Hy. destruct (l !! i); simplify_eq/=. apply H.
Qed.

Lemma draftFilled_final (d f : Fragment) :
  f_quantity f = Some (nor0 (f_quantity d)) →
  is_Some (f_scheduledDate f) →
  Form.draftFilled d = true → Form.draftFilled f = true.
Proof.
  unfold Form.draftFilled. intros -> Hdate.
  destruct (f_quantity d) as [q|]; [|done]. simpl.
  destruct (ntruthy q) eqn:Hq; simpl; [|done]. rewrite Hq. simpl.
  rewrite !andb_true_iff. intros [Hgt _]. split; [done|].
  by apply bool_decide_eq_true_2.
Qed.

Lemma strict_save_reopen (props : Props) (env env' : Env) (st : State)
    (saved : list Fragment) :
  fragments st ≠ [] →
  saved ∈ savedLists (Strict.handleSave props env st).2 →
  let props' := mkProps (order props) (products props) saved in
  let st' := mkState (selectedProductId st)
               (Strict.initializeFragments props' (selectedProductId st) env')
               None in
  saved = otherProducts props (selectedProductId st) ++ fragments st'
  ∧ Strict.handleSave props' env' st' = (st', [OnSave saved]).
Proof.
  intros Hne Hin props' st'.
  unfold Strict.handleSave in Hin.
  destruct (Strict.isValid props st) eqn:Hvalid; simpl in Hin;
    [|by apply elem_of_nil in Hin].
  apply list_elem_of_singleton in Hin.
  match type of Hin with _ = _ ++ imap ?g _ => set (G := g) in * end.
  fold (otherProducts props (selectedProductId st)) in Hin.
  set (other := otherProducts props (selectedProductId st)) in *.
  assert (Hsel : filter (λ f, f_productId f = Some (selectedProductId st))
                   saved = imap G (fragments st)).
  { rewrite Hin, filter_app, filter_none, filter_all; [done| |].
    - by apply Forall_imap_all.
    - apply Forall_forall. intros f Hf Heq.
      by apply list_elem_of_filter in Hf as [Hf _]. }
  assert (Hoth : filter (λ f, f_productId f ≠ Some (selectedProductId st))
                   saved = other).
  { rewrite Hin, filter_app, filter_all, filter_none, app_nil_r; [done| |].
    - apply Forall_imap_all. intros i d Hd. by apply Hd.
    - apply Forall_forall. intros f Hf.
      by apply list_elem_of_filter in Hf as [Hf _]. }
  assert (Hinit : fragments st' = imap G (fragments st)).
  { subst st'. cbn [fragments]. unfold Strict.initializeFragments.
    cbn [initialFragments props']. rewrite Hsel.
    rewrite bool_decide_eq_true_2.
    - apply list_eq. intros i. rewrite list_lookup_fmap, list_lookup_imap.
      by destruct (fragments st !! i).
    - rewrite length_imap. destruct (fragments st); [done|simpl; lia]. }
  split; [by rewrite Hinit|].
  assert (Hvalid' : Strict.isValid props' st' = true).
  { unfold Strict.isValid in *. apply andb_true_iff in Hvalid as [Ht Hf].
    apply andb_true_iff. split.
    - unfold Form.getTotalFragmentQuantity in *. rewrite Hinit.
      rewrite (fold_left_imap_same (λ f, nor0 (f_quantity f))); [done|].
      intros i d. apply nor0_idem.
    - rewrite Hinit. revert Hf. apply forallb_imap_impl.
      intros i d. by apply draftFilled_final. }
  unfold Strict.handleSave. rewrite Hvalid'. cbn [negb].
  cbn [initialFragments props' selectedProductId st']. rewrite Hoth.
  f_equal. f_equal. f_equal. rewrite Hin. f_equal.
  fold st'. rewrite Hinit. apply imap_imap_ext. intros i d.
  unfold G. cbn [f_id f_fragmentNumber f_quantity f_scheduledDate f_status
                 f_progress order default].
  f_equal.
  - f_equal. unfold Form.savedId at 1. cbn [f_id]. simpl sor.
    rewrite bool_decide_eq_true_2; [done|]. apply savedId_nonempty.
  - f_equal. unfold fragmentNumberOr at 1. cbn [f_fragmentNumber].
    rewrite bool_decide_eq_true_2; [done|]. apply fragmentNumberOr_nonzero.
  - f_equal. apply nor0_idem.
  - f_equal. by apply sor_idem.
  - f_equal. apply nor0_idem.
  - f_equal. by rewrite nor0_idem.
Qed.

Lemma partial_save_reopen (props : Props) (env env' : Env) (st : State)
    (saved : list Fragment) :
  fragments st ≠ [] →
  saved ∈ savedLists (Partial.handleSave props env st).2 →
  let props' := mkProps (order props) (products props) saved in
  let st' := mkState (selectedProductId st)
               (Partial.initializeFragments props' (selectedProductId st) env')
               None in
  Forall2 (λ f d, d = with_tempId (f_id f) f)
    (filter (λ f, f_productId f = Some (selectedProductId st)) saved)
    (fragments st')
  ∧ Partial.handleSave props' env' st' = (st', [OnSave saved]).
Proof.
  intros Hne Hin props' st'.
  unfold Partial.handleSave in Hin.
  destruct (Partial.isValid props st) eqn:Hvalid; simpl in Hin;
    [|by apply elem_of_nil in Hin].
  apply list_elem_of_singleton in Hin.
  match type of Hin with _ = _ ++ imap ?g _ => set (G := g) in * end.
  fold (otherProducts props (selectedProductId st)) in Hin.
  set (other := otherProducts props (selectedProductId st)) in *.
  assert (Hsel : filter (λ f, f_productId f = Some (selectedProductId st))
                   saved = imap G (fragments st)).
  { rewrite Hin, filter_app, filter_none, filter_all; [done| |].
    - by apply Forall_imap_all.
    - apply Forall_forall. intros f Hf Heq.
      by apply list_elem_of_filter in Hf as [Hf _]. }
  assert (Hoth : filter (λ f, f_productId f ≠ Some (selectedProductId st))
                   saved = other).
  { rewrite Hin, filter_app, filter_all, filter_none, app_nil_r; [done| |].
    - apply Forall_imap_all. intros i d Hd. by apply Hd.
    - apply Forall_forall. intros f Hf.
      by apply list_elem_of_filter in Hf as [Hf _]. }
  assert (Hinit : fragments st'
                  = imap (λ i d, with_tempId (f_id (G i d)) (G i d))
                      (fragments st)).
  { subst st'. cbn [fragments]. unfold Partial.initializeFragments.
    cbn [initialFragments props']. rewrite Hsel.
    rewrite bool_decide_eq_true_2.
    - apply list_eq. intros i. rewrite !list_lookup_imap.
      destruct (fragments st !! i) as [d|]; [|done]. simpl.
      rewrite bool_decide_eq_true_2; [done|]. apply savedId_nonempty.
    - rewrite length_imap. destruct (fragments st); [done|simpl; lia]. }
  split.
  { rewrite Hsel, Hinit. apply Forall2_lookup. intros i.
    rewrite !list_lookup_imap. destruct (fragments st !! i); by constructor. }
  assert (Hvalid' : Partial.isValid props' st' = true).
  { unfold Partial.isValid in *.
    apply andb_true_iff in Hvalid as [Ht Hf].
    apply andb_true_iff. split.
    - unfold Form.getTotalFragmentQuantity in *. rewrite Hinit.
      rewrite (fold_left_imap_same (λ f, nor0 (f_quantity f))); [done|].
      intros i d. apply nor0_idem.
    - rewrite Hinit. revert Hf. apply forallb_imap_impl.
      intros i d. by apply draftFilled_final. }
  unfold Partial.handleSave. rewrite Hvalid'. cbn [negb].
  cbn [initialFragments props' selectedProductId st']. rewrite Hoth.
  f_equal. f_equal. f_equal. rewrite Hin. f_equal.
  fold st'. rewrite Hinit.
  apply imap_imap_ext. intros i d.
  unfold G, with_tempId.
  cbn [f_id f_fragmentNumber f_quantity f_scheduledDate f_status f_progress
       f_assignedOperator f_startedAt f_completedAt order products default].
  f_equal.
  - f_equal. unfold Form.savedId at 1. cbn [f_id]. simpl sor.
    rewrite bool_decide_eq_true_2; [done|]. apply savedId_nonempty.
  - f_equal. unfold fragmentNumberOr at 1. cbn [f_fragmentNumber].
    rewrite bool_decide_eq_true_2; [done|]. apply fragmentNumberOr_nonzero.
  - f_equal. apply nor0_idem.
  - f_equal. by apply sor_idem.
  - f_equal. apply nor0_idem.
  - f_equal. by rewrite nor0_idem.
Qed.

(** X21. Saving is stable across a reopening of the form. When a save
    hands [saved] to the parent and the form is opened again on the same
    order with [saved] as its persisted fragments and the same product
    selected, then, at whatever later time and without any edit, the
    reopened state is valid and a second save hands over exactly [saved]
    again: identifiers, numbers, quantities, dates and values are kept.
    In the first version the reopened drafts are the saved fragments of the
    product themselves. *)
Theorem save_reopen_save_again (props : Props) (env env' : Env) (st : State)
    (saved : list Fragment) :
  fragments st ≠ [] →
  let props' := mkProps (order props) (products props) saved in
  (saved ∈ savedLists (Strict.handleSave props env st).2 →
   let st' := mkState (selectedProductId st)
                (Strict.initializeFragments props' (selectedProductId st) env')
                None in
   saved = otherProducts props (selectedProductId st) ++ fragments st'
   ∧ Strict.isValid props' st' = true
   ∧ Strict.handleSave props' env' st' = (st', [OnSave saved]))
  ∧
  (saved ∈ savedLists (Partial.handleSave props env st).2 →
   let st' := mkState (selectedProductId st)
                (Partial.initializeFragments props' (selectedProductId st) env')
                None in
   Partial.isValid props' st' = true
   ∧ Partial.handleSave props' env' st' = (st', [OnSave saved])).
Proof.
  intros Hne props'. split; intros Hin st'.
  - destruct (strict_save_reopen props env env' st saved Hne Hin)
      as [Hsaved Hsave].
    fold props' st' in Hsaved, Hsave. split; [done|]. split; [|done].
    unfold Strict.handleSave in Hsave.
    by destruct (Strict.isValid props' st').
  - destruct (partial_save_reopen props env env' st saved Hne Hin)
      as [_ Hsave].
    fold props' st' in Hsave. split; [|done].
    unfold Partial.handleSave in Hsave.
    by destruct (Partial.isValid props' st').
Qed.

Lemma save_reopen_save_again_witness :
  fragments strictValid ≠ []
  ∧ ∃ saved,
      saved ∈ savedLists (Strict.handleSave props2 env0 strictValid).2
      ∧ length saved = 3%nat
      ∧ let props' := mkProps (order props2) (products props2) saved in
        let env' := mkEnv (mkDate 20031 0) (λ _, 1702678400000)
                      (λ _, "a1b2c3d4e") in
        let st' := mkState (selectedProductId strictValid)
                     (Strict.initializeFragments props'
                        (selectedProductId strictValid) env')
                     None in
        Strict.handleSave props' env' st' = (st', [OnSave saved]).
Proof.
  assert (Hne : fragments strictValid ≠ []) by (vm_compute; discriminate).
  assert (Hin : ∃ saved,
             saved ∈ savedLists (Strict.handleSave props2 env0 strictValid).2
             ∧ length saved = 3%nat).
  { eexists. split; [vm_compute; left|reflexivity]. }
  destruct Hin as (saved & Hin & Hlen).
  split; [exact Hne|]. exists saved. split; [exact Hin|].
  split; [exact Hlen|].
  exact (proj2 (proj2 (proj1 (save_reopen_save_again props2 env0
                                (mkEnv (mkDate 20031 0) (λ _, 1702678400000)
                                   (λ _, "a1b2c3d4e"))
                                strictValid saved Hne) Hin))).
Defined.
